(** * License-key generator (lisans_olusturucu.py): model and verification

    A shallow embedding of [generate_verification_code] and
    [generate_license_key], together with the range check of [main],
    followed by the properties the specification states about them.

    Conventions.
    - A Python [str] is the list of its Unicode code points ([Z]).  A
      well-formed string holds code points in [0, 0x10FFFF]; lone surrogates
      (U+D800..U+DFFF) are legal in a [str] but refused by the strict UTF-8
      codec.
    - A Python [bytes] object is a [list byte]; iterating over it yields the
      integers [0..255] ([byte_to_Z]).
    - Python integers are unbounded: [Z].  The 32-bit accumulator is an
      ordinary integer masked with [0xFFFFFFFF] after every step.
    - Exceptions are explicit: a computation returns [Ok v] or [Raise e].
    - The module's global names live in a dictionary ([gmap string _]) that
      the functions read at call time.  The dictionary holds the three data
      names; the callables the functions also look up ([str], [range],
      [generate_verification_code]) are taken as the module binds them, so
      the model speaks for the program at [module_globals].
    - [str] and the [02d] format are modelled for integers the interpreter
      prints: by default CPython 3.11 and later raises [ValueError] for an
      integer of more than 4300 decimal digits ([printable]). *)

From Stdlib Require Import ZArith List Lia Bool Strings.Byte Ascii String Decimal.
From Stdlib Require Import Zdivisibility.
From stdpp Require Import base gmap strings list relations.
Import ListNotations.
Local Open Scope Z_scope.

(** ** Exceptions and the error monad *)

Inductive exn : Type :=
| UnicodeEncodeError
| IndexError
| NameError (name : string).

Inductive result (A : Type) : Type :=
| Ok (a : A)
| Raise (e : exn).

Arguments Ok {A} a.
Arguments Raise {A} e.

Definition bind {A B : Type} (c : result A) (k : A -> result B) : result B :=
  match c with
  | Ok a => k a
  | Raise e => Raise e
  end.

Notation "'let*' x ':=' c 'in' k" := (bind c (fun x => k))
  (at level 10, x name, c at level 100, k at level 200).

(** ** Strings and bytes *)

Abbreviation pystr := (list Z).

(** An ASCII literal as a Python string. *)
Definition lit (s : string) : list Z :=
  map (fun a => Z.of_N (N_of_ascii a)) (list_ascii_of_string s).

Definition wf_codepoint (c : Z) : Prop := 0 <= c <= 0x10FFFF.
Definition is_surrogate (c : Z) : bool := (0xD800 <=? c) && (c <=? 0xDFFF).
Definition wf_pystr (s : list Z) : Prop := Forall wf_codepoint s.
Definition surrogate_free (s : list Z) : Prop := Forall (fun c => is_surrogate c = false) s.

Definition byte_to_Z (b : byte) : Z := Z.of_N (Byte.to_N b).

Definition byte_of_Z (z : Z) : byte :=
  match Byte.of_N (Z.to_N z) with
  | Some b => b
  | None => x00
  end.

(** [str.encode('utf-8')], errors='strict': one to four bytes per code point,
    a surrogate raises [UnicodeEncodeError]. *)
Definition utf8_char (c : Z) : result (list byte) :=
  if c <? 0x80 then Ok [byte_of_Z c]
  else if c <? 0x800 then
    Ok [byte_of_Z (Z.lor 0xC0 (Z.shiftr c 6));
        byte_of_Z (Z.lor 0x80 (Z.land c 0x3F))]
  else if c <? 0x10000 then
    if is_surrogate c then Raise UnicodeEncodeError
    else
      Ok [byte_of_Z (Z.lor 0xE0 (Z.shiftr c 12));
          byte_of_Z (Z.lor 0x80 (Z.land (Z.shiftr c 6) 0x3F));
          byte_of_Z (Z.lor 0x80 (Z.land c 0x3F))]
  else
    Ok [byte_of_Z (Z.lor 0xF0 (Z.shiftr c 18));
        byte_of_Z (Z.lor 0x80 (Z.land (Z.shiftr c 12) 0x3F));
        byte_of_Z (Z.lor 0x80 (Z.land (Z.shiftr c 6) 0x3F));
        byte_of_Z (Z.lor 0x80 (Z.land c 0x3F))].

Fixpoint utf8_encode (s : list Z) : result (list byte) :=
  match s with
  | [] => Ok []
  | c :: s' =>
      let* b := utf8_char c in
      let* bs := utf8_encode s' in
      Ok (b ++ bs)
  end.

(** ** The rolling hash (lines 17-19) *)

(** One iteration of [for byte in bytes_data]. *)
Definition hash_step (hash_val : Z) (b : byte) : Z :=
  Z.land (Z.shiftl hash_val 5 - hash_val + byte_to_Z b) 0xFFFFFFFF.

Definition hash_bytes (bytes_data : list byte) : Z :=
  fold_left hash_step bytes_data 0.

(** The same loop as a transition system on (accumulator, bytes left). *)
Inductive loop_step : Z * list byte -> Z * list byte -> Prop :=
| loop_iter (hash_val : Z) (b : byte) (rest : list byte) :
    loop_step (hash_val, b :: rest) (hash_step hash_val b, rest).

(** The specification's wording of the fold: multiply by 31, add, wrap. *)
Definition spec_hash_step (hash_val : Z) (b : byte) : Z :=
  (hash_val * 31 + byte_to_Z b) mod 2 ^ 32.

Definition spec_hash (bytes_data : list byte) : Z :=
  fold_left spec_hash_step bytes_data 0.

(** ** The four output characters (lines 21-23) *)

(** [range(n)] *)
Definition range (n : nat) : list Z := map Z.of_nat (seq 0 n).

(** [s[i]] on a string: a negative index counts from the end, an index out of
    range raises [IndexError]. *)
Definition str_index (s : list Z) (i : Z) : result Z :=
  let n := Z.of_nat (length s) in
  let j := if i <? 0 then i + n else i in
  if (0 <=? j) && (j <? n) then
    match nth_error s (Z.to_nat j) with
    | Some c => Ok c
    | None => Raise IndexError
    end
  else Raise IndexError.

(** The index used at output position [i]. *)
Definition field (hash_val i : Z) : Z := Z.land (Z.shiftr hash_val (i * 5)) 31.

(** One iteration of [for i in range(4)]: [code += CHARS[...]]. *)
Definition code_step (chars : list Z) (hash_val : Z)
    (code : result (list Z)) (i : Z) : result (list Z) :=
  let* c := code in
  let* ch := str_index chars (field hash_val i) in
  Ok (c ++ [ch]).

Definition code_of_hash (chars : list Z) (hash_val : Z) : result (list Z) :=
  fold_left (code_step chars hash_val) (range 4) (Ok []).

(** ** Module globals (lines 8-10) *)

Definition SCHOOL_CODE : list Z := lit "KBOA".
(** "Hatipo" g-breve "lu" O-diaeresis "merAkarsel2024": the source file spells
    the two letters precomposed (U+011F, U+00D6). *)
Definition SECRET_KEY : list Z :=
  lit "Hatipo" ++ [0x11F] ++ lit "lu" ++ [0xD6] ++ lit "merAkarsel2024".
Definition CHARS : list Z := lit "ABCDEFGHJKLMNPQRSTUVWXYZ23456789".

(** The module dictionary once the three assignments have run. *)
Definition module_globals : gmap string (list Z) :=
  <["SCHOOL_CODE" := SCHOOL_CODE]>
    (<["SECRET_KEY" := SECRET_KEY]>
       (<["CHARS" := CHARS]> ∅)).

(** Reading a global name: [NameError] when it is unbound. *)
Definition lookup_global (g : gmap string (list Z)) (name : string) : result (list Z) :=
  match g !! name with
  | Some v => Ok v
  | None => Raise (NameError name)
  end.

(** ** generate_verification_code (lines 12-25) *)

(** Lines 14-15: the f-string and its UTF-8 encoding, the bytes that are
    hashed. *)
Definition hash_input (g : gmap string (list Z)) (year month_day : list Z)
    : result (list byte) :=
  let* school := lookup_global g "SCHOOL_CODE" in
  let* secret := lookup_global g "SECRET_KEY" in
  let input_str := school ++ year ++ month_day ++ secret in
  utf8_encode input_str.

(** [CHARS] is read in every iteration of the second loop; the dictionary
    does not change during the call and [range(4)] is not empty, so one read
    before the loop raises the same [NameError] at the same point. *)
Definition generate_verification_code (g : gmap string (list Z))
    (year month_day : list Z) : result (list Z) :=
  let* bytes_data := hash_input g year month_day in
  let hash_val := hash_bytes bytes_data in
  let* chars := lookup_global g "CHARS" in
  code_of_hash chars hash_val.

(** ** generate_license_key (lines 27-31) *)

Definition digit_char (d : Z) : Z := 48 + d.
Definition minus_sign : Z := 45.

Fixpoint uint_codes (d : Decimal.uint) : list Z :=
  match d with
  | Decimal.Nil => []
  | Decimal.D0 d' => digit_char 0 :: uint_codes d'
  | Decimal.D1 d' => digit_char 1 :: uint_codes d'
  | Decimal.D2 d' => digit_char 2 :: uint_codes d'
  | Decimal.D3 d' => digit_char 3 :: uint_codes d'
  | Decimal.D4 d' => digit_char 4 :: uint_codes d'
  | Decimal.D5 d' => digit_char 5 :: uint_codes d'
  | Decimal.D6 d' => digit_char 6 :: uint_codes d'
  | Decimal.D7 d' => digit_char 7 :: uint_codes d'
  | Decimal.D8 d' => digit_char 8 :: uint_codes d'
  | Decimal.D9 d' => digit_char 9 :: uint_codes d'
  end.

(** The decimal digits of a natural number, most significant first, "0" for
    zero. *)
Definition digits (n : Z) : list Z := uint_codes (N.to_uint (Z.to_N n)).

(** [str(n)] and [f"{n}"] for an [int]. *)
Definition str (n : Z) : list Z :=
  if n <? 0 then minus_sign :: digits (- n) else digits n.

(** [f"{n:02d}"]: zero fill to width 2, the sign counted in the width. *)
Definition zero_fill (width : nat) (s : list Z) : list Z :=
  repeat (digit_char 0) (width - length s) ++ s.

Definition format_02d (n : Z) : list Z :=
  if n <? 0 then minus_sign :: zero_fill 1 (digits (- n))
  else zero_fill 2 (digits n).

Definition generate_license_key (g : gmap string (list Z))
    (year month day : Z) : result (list Z) :=
  let month_day := format_02d month ++ format_02d day in
  let* verification := generate_verification_code g (str year) month_day in
  Ok (lit "KBOA-" ++ str year ++ lit "-" ++ month_day ++ lit "-" ++ verification).

(** ** The body of main's loop after the three integers are read
    (lines 48-60) *)

Inductive rejection : Type :=
| YearOutOfRange    (* "Hata: Yil 2024-2100 arasinda olmali!" *)
| MonthOutOfRange   (* "Hata: Ay 1-12 arasinda olmali!" *)
| DayOutOfRange.    (* "Hata: Gun 1-31 arasinda olmali!" *)

Inductive outcome : Type :=
| Rejected (why : rejection)          (* message printed, [continue] *)
| Printed (license_key : list Z)      (* key generated and shown *)
| Uncaught (e : exn).                 (* propagates out of the try block *)

Definition main_iteration (g : gmap string (list Z)) (year month day : Z) : outcome :=
  if (year <? 2024) || (year >? 2100) then Rejected YearOutOfRange
  else if (month <? 1) || (month >? 12) then Rejected MonthOutOfRange
  else if (day <? 1) || (day >? 31) then Rejected DayOutOfRange
  else
    match generate_license_key g year month day with
    | Ok license_key => Printed license_key
    | Raise e => Uncaught e
    end.

(** ** Vocabulary of the specification *)

(** The ranges the caller enforces before a key is generated. *)
Definition valid_date (year month day : Z) : Prop :=
  2024 <= year <= 2100 /\ 1 <= month <= 12 /\ 1 <= day <= 31.

Definition is_digit (c : Z) : bool := (48 <=? c) && (c <=? 57).

(** The number a digit string denotes (most significant digit first). *)
Definition decimal_value (s : list Z) : Z :=
  fold_left (fun acc c => acc * 10 + (c - 48)) s 0.

(** [s] is the decimal numeral of [n] with no padding. *)
Definition unpadded_decimal (s : list Z) (n : Z) : Prop :=
  s <> [] /\ forallb is_digit s = true /\
  ((1 < length s)%nat -> hd 0 s <> digit_char 0) /\
  decimal_value s = n.

(** [n] as exactly two decimal digits. *)
Definition two_digits (n : Z) : list Z := [digit_char (n / 10); digit_char (n mod 10)].

(** [s.split(sep)] for a one-character separator. *)
Fixpoint split_on (sep : Z) (s : list Z) : list (list Z) :=
  match s with
  | [] => [[]]
  | c :: s' =>
      if c =? sep then [] :: split_on sep s'
      else
        match split_on sep s' with
        | f :: fs => (c :: f) :: fs
        | [] => [[c]]
        end
  end.

(** Reading a plain digit string as a decimal integer ([int(s)] on such a
    string); [None] where it is empty or holds another character. *)
Definition parse_decimal (s : list Z) : option Z :=
  match s with
  | [] => None
  | _ => if forallb is_digit s then Some (decimal_value s) else None
  end.

(** The bytes hashed for the date 2027-01-15. *)
Definition known_vector_bytes : list byte :=
  [x4b; x42; x4f; x41;                              (* KBOA *)
   x32; x30; x32; x37;                              (* 2027 *)
   x30; x31; x31; x35;                              (* 0115 *)
   x48; x61; x74; x69; x70; x6f; xc4; x9f; x6c; x75; (* Hatipo, C4 9F, lu *)
   xc3; x96; x6d; x65; x72;                          (* C3 96, mer *)
   x41; x6b; x61; x72; x73; x65; x6c;                (* Akarsel *)
   x32; x30; x32; x34].                              (* 2024 *)

(** What is checked of the string of each year of the accepted range. *)
Definition year_string_ok (year : Z) : bool :=
  let s := str year in
  (length s =? 4)%nat && forallb is_digit s &&
  negb (hd 0 s =? digit_char 0) && (decimal_value s =? year).

(** The interpreter's default limit on integer to string conversion
    ([sys.int_info.default_max_str_digits]): an integer of more decimal
    digits is not printed, [str] and the [d] format raise [ValueError]. *)
Definition max_str_digits : Z := 4300.

Definition printable (n : Z) : Prop := Z.abs n < 10 ^ max_str_digits.

(** The integers [lo, lo + n), for checks over a bounded range. *)
Definition zrange (lo : Z) (n : nat) : list Z := map (fun k => lo + Z.of_nat k) (seq 0 n).

(** The hash as a polynomial in 31, before any wrap-around: the byte at
    distance [k] from the end is weighted by [31 ^ k]. *)
Fixpoint poly_sum (bytes_data : list byte) : Z :=
  match bytes_data with
  | [] => 0
  | b :: rest => byte_to_Z b * 31 ^ Z.of_nat (length rest) + poly_sum rest
  end.

(** ** main (lines 33-82) as a function of what is typed

    The terminal is a list of events: a line typed at a prompt, or Ctrl-C
    pressed at a prompt; the end of the list is the end of the input, where
    [input] raises [EOFError].  [int] and [str.lower] are taken as
    parameters: [int_of_str s = None] stands for [ValueError]. *)

Inductive stdin_event : Type :=
| Line (s : list Z)
| CtrlC.

Inductive prompt : Type :=
| AskYear      (* input("  Yil (orn: 2027): ") *)
| AskMonth     (* input("  Ay (1-12): ") *)
| AskDay       (* input("  Gun (1-31): ") *)
| AskAgain.    (* input("Baska anahtar olusturmak ister misiniz? (e/h): ") *)

Inductive output : Type :=
| OutBanner                                  (* lines 34-38 *)
| OutEnterDate                               (* line 41 *)
| OutPrompt (p : prompt)
| OutRangeError (why : rejection)            (* lines 50, 53, 56 *)
| OutNotANumber                              (* line 77 *)
| OutLicense (day month year : Z) (license_key : list Z)   (* lines 62-68 *)
| OutBlank                                   (* line 74 *)
| OutInterrupted                             (* line 79 *)
| OutEnded.                                  (* line 82 *)

Inductive exit : Type :=
| Returns
| RaisesEOFError
| RaisesOther (e : exn).

Definition emit (evs : list output) (r : list output * exit) : list output * exit :=
  (evs ++ fst r, snd r).

(** [except KeyboardInterrupt]: message, [break], then line 82. *)
Definition interrupted : list output * exit := ([OutInterrupted; OutEnded], Returns).

(** [input] at the end of the input: [EOFError] is not caught. *)
Definition end_of_input : list output * exit := ([], RaisesEOFError).

(** The [while True] loop.  [UnicodeEncodeError] is a [ValueError] and would
    be caught by the first handler; other exceptions leave [main]. *)
Fixpoint main_loop (int_of_str : list Z -> option Z) (lower : list Z -> list Z)
    (inputs : list stdin_event) : list output * exit :=
  emit [OutEnterDate; OutPrompt AskYear]
  match inputs with
  | [] => end_of_input
  | CtrlC :: _ => interrupted
  | Line s1 :: in1 =>
    match int_of_str s1 with
    | None => emit [OutNotANumber] (main_loop int_of_str lower in1)
    | Some year =>
      emit [OutPrompt AskMonth]
      match in1 with
      | [] => end_of_input
      | CtrlC :: _ => interrupted
      | Line s2 :: in2 =>
        match int_of_str s2 with
        | None => emit [OutNotANumber] (main_loop int_of_str lower in2)
        | Some month =>
          emit [OutPrompt AskDay]
          match in2 with
          | [] => end_of_input
          | CtrlC :: _ => interrupted
          | Line s3 :: in3 =>
            match int_of_str s3 with
            | None => emit [OutNotANumber] (main_loop int_of_str lower in3)
            | Some day =>
              match main_iteration module_globals year month day with
              | Rejected why =>
                  emit [OutRangeError why] (main_loop int_of_str lower in3)
              | Uncaught UnicodeEncodeError =>
                  emit [OutNotANumber] (main_loop int_of_str lower in3)
              | Uncaught e => ([], RaisesOther e)
              | Printed license_key =>
                emit [OutLicense day month year license_key; OutPrompt AskAgain]
                match in3 with
                | [] => end_of_input
                | CtrlC :: _ => interrupted
                | Line again :: in4 =>
                    if bool_decide (lower again = lit "e")
                    then emit [OutBlank] (main_loop int_of_str lower in4)
                    else ([OutEnded], Returns)
                end
              end
            end
          end
        end
      end
    end
  end.

Definition main (int_of_str : list Z -> option Z) (lower : list Z -> list Z)
    (inputs : list stdin_event) : list output * exit :=
  emit [OutBanner] (main_loop int_of_str lower inputs).

(** What a displayed key must satisfy: it is the key of the date shown with
    it, and that date is in the accepted ranges. *)
Definition shows_valid_key (o : output) : Prop :=
  match o with
  | OutLicense day month year license_key =>
      valid_date year month day /\
      generate_license_key module_globals year month day = Ok license_key
  | _ => True
  end.

(** ** Properties of the rolling hash *)

Lemma hash_step_spec (h : Z) (b : byte) : hash_step h b = spec_hash_step h b.
Proof.
  unfold hash_step, spec_hash_step.
  change 0xFFFFFFFF with (Z.ones 32).
  rewrite Z.land_ones by lia.
  rewrite Z.shiftl_mul_pow2 by lia.
  f_equal. change (2 ^ 5) with 32. lia.
Qed.

Lemma fold_hash_spec (bs : list byte) (h : Z) :
  fold_left hash_step bs h = fold_left spec_hash_step bs h.
Proof.
  revert h. induction bs as [|b bs IH]; intros h; simpl.
  - reflexivity.
  - rewrite hash_step_spec. apply IH.
Qed.

Lemma hash_step_range (h : Z) (b : byte) : 0 <= hash_step h b < 2 ^ 32.
Proof.
  rewrite hash_step_spec. unfold spec_hash_step.
  apply Z.mod_pos_bound. lia.
Qed.

Lemma fold_hash_range (bs : list byte) (h : Z) :
  0 <= h < 2 ^ 32 -> 0 <= fold_left hash_step bs h < 2 ^ 32.
Proof.
  revert h. induction bs as [|b bs IH]; intros h Hh; simpl.
  - exact Hh.
  - apply IH, hash_step_range.
Qed.

Lemma hash_bytes_range (bs : list byte) : 0 <= hash_bytes bs < 2 ^ 32.
Proof. apply fold_hash_range. lia. Qed.

(** C1: for every byte sequence the accumulator of the shift-and-subtract
    loop masked with 0xFFFFFFFF equals the fold of
    [hash = (hash * 31 + byte) mod 2^32] from 0; the two step functions agree
    on every accumulator, and the result is a 32-bit unsigned value. *)
Theorem C1_shift_form_is_times_31 :
  (forall (h : Z) (b : byte), hash_step h b = spec_hash_step h b) /\
  (forall bytes_data : list byte,
      hash_bytes bytes_data = spec_hash bytes_data /\
      0 <= hash_bytes bytes_data < 2 ^ 32).
Proof.
  split.
  - exact hash_step_spec.
  - intros bs. split.
    + apply fold_hash_spec.
    + apply hash_bytes_range.
Qed.

(** ** Properties of the bit fields and of the output loop *)

Lemma field_range (h i : Z) : 0 <= field h i < 32.
Proof.
  unfold field. change 31 with (Z.ones 5).
  rewrite Z.land_ones by lia.
  apply Z.mod_pos_bound. lia.
Qed.

Lemma field_testbit (h i j : Z) :
  0 <= i -> 0 <= j ->
  Z.testbit (field h i) j = (j <? 5) && Z.testbit h (i * 5 + j).
Proof.
  intros Hi Hj. unfold field.
  rewrite Z.land_spec, Z.shiftr_spec by lia.
  change 31 with (Z.ones 5).
  rewrite Z.testbit_ones_nonneg by lia.
  rewrite andb_comm. do 2 f_equal. lia.
Qed.

Lemma field_low_bits (h i : Z) :
  0 <= i < 4 -> field (h mod 2 ^ 20) i = field h i.
Proof.
  intros Hi. apply Z.bits_inj'. intros j Hj.
  rewrite !field_testbit by lia.
  destruct (j <? 5) eqn:Hlt; simpl; [|reflexivity].
  apply Z.ltb_lt in Hlt.
  apply Z.mod_pow2_bits_low. lia.
Qed.

Lemma str_index_in_range (s : list Z) (i : Z) :
  0 <= i < Z.of_nat (length s) ->
  exists c, str_index s i = Ok c /\ nth_error s (Z.to_nat i) = Some c.
Proof.
  intros Hi. unfold str_index.
  destruct (i <? 0) eqn:Hneg; [apply Z.ltb_lt in Hneg; lia|].
  replace ((0 <=? i) && (i <? Z.of_nat (length s))) with true
    by (symmetry; apply andb_true_iff; split; [apply Z.leb_le | apply Z.ltb_lt]; lia).
  destruct (nth_error s (Z.to_nat i)) as [c|] eqn:Hnth.
  - exists c. split; reflexivity.
  - apply nth_error_None in Hnth. lia.
Qed.

Lemma code_of_hash_unfold (chars : list Z) (h : Z) :
  code_of_hash chars h =
    let* c0 := str_index chars (field h 0) in
    let* c1 := str_index chars (field h 1) in
    let* c2 := str_index chars (field h 2) in
    let* c3 := str_index chars (field h 3) in
    Ok [c0; c1; c2; c3].
Proof.
  unfold code_of_hash, range. cbn [seq map fold_left].
  change (Z.of_nat 0) with 0. change (Z.of_nat 1) with 1.
  change (Z.of_nat 2) with 2. change (Z.of_nat 3) with 3.
  unfold code_step. cbn [bind].
  destruct (str_index chars (field h 0)); cbn [bind app]; [|reflexivity].
  destruct (str_index chars (field h 1)); cbn [bind app]; [|reflexivity].
  destruct (str_index chars (field h 2)); cbn [bind app]; [|reflexivity].
  destruct (str_index chars (field h 3)); cbn [bind app]; reflexivity.
Qed.

Lemma CHARS_length : length CHARS = 32%nat.
Proof. reflexivity. Qed.

Lemma code_of_hash_CHARS (h : Z) :
  exists c0 c1 c2 c3,
    code_of_hash CHARS h = Ok [c0; c1; c2; c3] /\
    nth_error CHARS (Z.to_nat (field h 0)) = Some c0 /\
    nth_error CHARS (Z.to_nat (field h 1)) = Some c1 /\
    nth_error CHARS (Z.to_nat (field h 2)) = Some c2 /\
    nth_error CHARS (Z.to_nat (field h 3)) = Some c3.
Proof.
  rewrite code_of_hash_unfold.
  destruct (str_index_in_range CHARS (field h 0)) as (c0 & E0 & N0);
    [rewrite CHARS_length; pose proof (field_range h 0); lia|].
  destruct (str_index_in_range CHARS (field h 1)) as (c1 & E1 & N1);
    [rewrite CHARS_length; pose proof (field_range h 1); lia|].
  destruct (str_index_in_range CHARS (field h 2)) as (c2 & E2 & N2);
    [rewrite CHARS_length; pose proof (field_range h 2); lia|].
  destruct (str_index_in_range CHARS (field h 3)) as (c3 & E3 & N3);
    [rewrite CHARS_length; pose proof (field_range h 3); lia|].
  exists c0, c1, c2, c3. rewrite E0, E1, E2, E3. cbn [bind]. auto.
Qed.

Lemma code_of_hash_low_bits (chars : list Z) (h : Z) :
  code_of_hash chars (h mod 2 ^ 20) = code_of_hash chars h.
Proof.
  rewrite !code_of_hash_unfold, !field_low_bits by lia. reflexivity.
Qed.

Lemma lookup_SCHOOL_CODE : lookup_global module_globals "SCHOOL_CODE" = Ok SCHOOL_CODE.
Proof. reflexivity. Qed.

Lemma lookup_SECRET_KEY : lookup_global module_globals "SECRET_KEY" = Ok SECRET_KEY.
Proof. reflexivity. Qed.

Lemma lookup_CHARS : lookup_global module_globals "CHARS" = Ok CHARS.
Proof. reflexivity. Qed.

Lemma generate_verification_code_hash (year month_day : list Z) (bytes_data : list byte) :
  hash_input module_globals year month_day = Ok bytes_data ->
  generate_verification_code module_globals year month_day =
    code_of_hash CHARS (hash_bytes bytes_data).
Proof.
  intros E. unfold generate_verification_code. rewrite E. simpl.
  rewrite lookup_CHARS. reflexivity.
Qed.

(** C2: for every 32-bit hash value the code has four characters, the one at
    position i being the alphabet symbol at index [(hash >> (i*5)) & 0x1F];
    that index is made of bits [5i .. 5i+4] of the hash (bits 0-4 at position
    0, bits 15-19 at position 3), so bits 20-31 are never read: hash values
    congruent modulo 2^20 give the same code.  The code returned by
    [generate_verification_code] is the one of the hash of its input bytes. *)
Theorem C2_code_positions (hash_val : Z) :
  0 <= hash_val < 2 ^ 32 ->
  (exists code,
      code_of_hash CHARS hash_val = Ok code /\ length code = 4%nat /\
      forall i : nat, (i < 4)%nat ->
        nth_error code i =
          nth_error CHARS (Z.to_nat (Z.land (Z.shiftr hash_val (Z.of_nat i * 5)) 0x1F))) /\
  (forall i j : Z, 0 <= i < 4 -> 0 <= j ->
      Z.testbit (Z.land (Z.shiftr hash_val (i * 5)) 0x1F) j =
        (j <? 5) && Z.testbit hash_val (i * 5 + j)) /\
  (forall other : Z, 0 <= other < 2 ^ 32 ->
      hash_val mod 2 ^ 20 = other mod 2 ^ 20 ->
      code_of_hash CHARS hash_val = code_of_hash CHARS other) /\
  (forall (year month_day : list Z) (bytes_data : list byte),
      hash_input module_globals year month_day = Ok bytes_data ->
      hash_bytes bytes_data = hash_val ->
      generate_verification_code module_globals year month_day =
        code_of_hash CHARS hash_val).
Proof.
  intros Hrange. repeat split.
  - destruct (code_of_hash_CHARS hash_val) as (c0 & c1 & c2 & c3 & E & N0 & N1 & N2 & N3).
    exists [c0; c1; c2; c3]. split; [exact E|]. split; [reflexivity|].
    intros i Hi.
    destruct i as [|[|[|[|i]]]]; simpl; [symmetry; assumption .. | lia].
  - intros i j Hi Hj. apply (field_testbit hash_val i j); lia.
  - intros other _ Hmod.
    rewrite <- (code_of_hash_low_bits CHARS hash_val), Hmod.
    apply code_of_hash_low_bits.
  - intros year month_day bytes_data E <-.
    apply generate_verification_code_hash, E.
Qed.

Lemma C2_code_positions_witness :
  0 <= 2490746330 < 2 ^ 32 /\
  code_of_hash CHARS 2490746330 = code_of_hash CHARS (2490746330 mod 2 ^ 20).
Proof.
  split; [lia|].
  apply (C2_code_positions 2490746330); [lia | | reflexivity].
  split; [apply Z.mod_pos_bound; lia|].
  pose proof (Z.mod_pos_bound 2490746330 (2 ^ 20)). lia.
Defined.

(** ** Properties of the encoder and of the hash loop as a transition system *)

Lemma utf8_char_total (c : Z) :
  is_surrogate c = false -> exists bs, utf8_char c = Ok bs.
Proof.
  intros Hc. unfold utf8_char. rewrite Hc.
  destruct (c <? 128); [eauto|].
  destruct (c <? 2048); [eauto|].
  destruct (c <? 65536); eauto.
Qed.

Lemma utf8_char_surrogate (c : Z) :
  is_surrogate c = true -> utf8_char c = Raise UnicodeEncodeError.
Proof.
  intros Hc. unfold utf8_char. rewrite Hc.
  unfold is_surrogate in Hc. apply andb_true_iff in Hc as [Hlo Hhi].
  apply Z.leb_le in Hlo. apply Z.leb_le in Hhi.
  destruct (c <? 128) eqn:E1; [apply Z.ltb_lt in E1; lia|].
  destruct (c <? 2048) eqn:E2; [apply Z.ltb_lt in E2; lia|].
  destruct (c <? 65536) eqn:E3; [reflexivity|].
  apply Z.ltb_ge in E3. lia.
Qed.

Lemma utf8_encode_total (s : list Z) :
  surrogate_free s -> exists bs, utf8_encode s = Ok bs.
Proof.
  induction 1 as [|c s Hc _ IH]; simpl.
  - eauto.
  - destruct (utf8_char_total c Hc) as [b ->].
    destruct IH as [bs ->]. simpl. eauto.
Qed.

Lemma utf8_encode_app (s t : list Z) :
  utf8_encode (s ++ t) =
    let* a := utf8_encode s in
    let* b := utf8_encode t in
    Ok (a ++ b).
Proof.
  induction s as [|c s IH]; simpl.
  - destruct (utf8_encode t); reflexivity.
  - destruct (utf8_char c) as [bc|]; simpl; [|reflexivity].
    rewrite IH.
    destruct (utf8_encode s) as [bs|]; simpl; [|reflexivity].
    destruct (utf8_encode t) as [bt|]; simpl; [|reflexivity].
    rewrite app_assoc. reflexivity.
Qed.

Lemma SCHOOL_CODE_surrogate_free : surrogate_free SCHOOL_CODE.
Proof. repeat constructor. Qed.

Lemma SECRET_KEY_surrogate_free : surrogate_free SECRET_KEY.
Proof. repeat constructor. Qed.

Lemma hash_input_module (year month_day : list Z) :
  hash_input module_globals year month_day =
    utf8_encode (SCHOOL_CODE ++ year ++ month_day ++ SECRET_KEY).
Proof.
  unfold hash_input. rewrite lookup_SCHOOL_CODE, lookup_SECRET_KEY. reflexivity.
Qed.

Lemma hash_input_total (year month_day : list Z) :
  surrogate_free year -> surrogate_free month_day ->
  exists bytes_data, hash_input module_globals year month_day = Ok bytes_data.
Proof.
  intros Hy Hmd. rewrite hash_input_module.
  apply utf8_encode_total. unfold surrogate_free.
  rewrite !Forall_app.
  repeat split; try assumption.
  - apply SCHOOL_CODE_surrogate_free.
  - apply SECRET_KEY_surrogate_free.
Qed.

Lemma loop_runs (bs : list byte) (h : Z) :
  nsteps loop_step (length bs) (h, bs) (fold_left hash_step bs h, []).
Proof.
  revert h. induction bs as [|b bs IH]; intros h; simpl.
  - constructor.
  - econstructor; [constructor | apply IH].
Qed.

Lemma loop_bounded (n : nat) (bs : list byte) (h : Z) (final : Z * list byte) :
  nsteps loop_step n (h, bs) final -> (n <= length bs)%nat.
Proof.
  revert bs h. induction n as [|n IH]; intros bs h Hrun; [lia|].
  inversion Hrun as [|? ? mid ? Hstep Hrest]; subst.
  inversion Hstep; subst. simpl.
  apply IH in Hrest. lia.
Qed.

Lemma loop_exhausts (n : nat) (bs : list byte) (h h' : Z) :
  nsteps loop_step n (h, bs) (h', []) ->
  n = length bs /\ h' = fold_left hash_step bs h.
Proof.
  revert bs h. induction n as [|n IH]; intros bs h Hrun.
  - inversion Hrun; subst. split; reflexivity.
  - inversion Hrun as [|? ? mid ? Hstep Hrest]; subst.
    inversion Hstep; subst. simpl.
    apply IH in Hrest as [-> ->]. split; reflexivity.
Qed.

(** C3: for year 2027, month 1, day 15 the bytes that are hashed are the UTF-8
    encoding of "KBOA" + "2027" + "0115" + the secret, in that order; they are
    listed in [known_vector_bytes], and the key is built from their hash. *)
Theorem C3_known_vector_input :
  hash_input module_globals (str 2027) (format_02d 1 ++ format_02d 15) =
    utf8_encode
      (lit "KBOA" ++ lit "2027" ++ lit "0115" ++
       (lit "Hatipo" ++ [0x11F] ++ lit "lu" ++ [0xD6] ++ lit "merAkarsel2024")) /\
  hash_input module_globals (str 2027) (format_02d 1 ++ format_02d 15) =
    Ok known_vector_bytes /\
  generate_license_key module_globals 2027 1 15 =
    (let* verification := code_of_hash CHARS (hash_bytes known_vector_bytes) in
     Ok (lit "KBOA-" ++ lit "2027" ++ lit "-" ++ lit "0115" ++ lit "-" ++ verification)).
Proof.
  assert (E : hash_input module_globals (str 2027) (format_02d 1 ++ format_02d 15)
              = Ok known_vector_bytes) by (vm_compute; reflexivity).
  split; [|split].
  - rewrite E. vm_compute. reflexivity.
  - exact E.
  - unfold generate_license_key.
    rewrite (generate_verification_code_hash _ _ _ E).
    reflexivity.
Qed.

(** C6 as stated fails: a string may hold a lone surrogate, and the strict
    UTF-8 codec then raises before the loop starts. *)
Lemma C6_lone_surrogate_raises :
  wf_pystr [0xD800] /\ wf_pystr (lit "0115") /\
  generate_verification_code module_globals [0xD800] (lit "0115") =
    Raise UnicodeEncodeError.
Proof.
  split; [|split].
  - repeat constructor; unfold wf_codepoint; lia.
  - repeat constructor; unfold wf_codepoint; simpl; lia.
  - vm_compute. reflexivity.
Qed.

Lemma utf8_char_raises (c : Z) (e : exn) :
  utf8_char c = Raise e -> e = UnicodeEncodeError.
Proof.
  unfold utf8_char.
  destruct (c <? 128); [discriminate|].
  destruct (c <? 2048); [discriminate|].
  destruct (c <? 65536); [|discriminate].
  destruct (is_surrogate c); [|discriminate].
  intros E. injection E as <-. reflexivity.
Qed.

Lemma utf8_encode_surrogate (s : list Z) :
  Exists (fun c => is_surrogate c = true) s ->
  utf8_encode s = Raise UnicodeEncodeError.
Proof.
  induction s as [|c s IH]; intros Hex.
  - inversion Hex.
  - cbn [utf8_encode].
    destruct (utf8_char c) as [b|e] eqn:Ec.
    + cbn [bind].
      inversion Hex as [? ? Hc | ? ? Hs]; subst.
      * rewrite (utf8_char_surrogate c Hc) in Ec. discriminate Ec.
      * rewrite (IH Hs). reflexivity.
    + cbn [bind]. rewrite (utf8_char_raises c e Ec). reflexivity.
Qed.

Lemma hash_input_surrogate (year month_day : list Z) :
  Exists (fun c => is_surrogate c = true) (year ++ month_day) ->
  hash_input module_globals year month_day = Raise UnicodeEncodeError.
Proof.
  intros Hex. rewrite hash_input_module.
  apply utf8_encode_surrogate.
  rewrite (app_assoc year).
  apply Exists_app. right. apply Exists_app. left. exact Hex.
Qed.

Lemma surrogate_free_or_not (s : list Z) :
  surrogate_free s \/ Exists (fun c => is_surrogate c = true) s.
Proof.
  induction s as [|c s [IH|IH]].
  - left. constructor.
  - destruct (is_surrogate c) eqn:Ec.
    + right. left. exact Ec.
    + left. constructor; assumption.
  - right. right. exact IH.
Qed.

(** C6 (amended): for every pair of strings free of surrogate code points,
    [generate_verification_code] returns a 4-character string; the hash loop
    makes exactly one step per byte of the encoded concatenation: it reaches
    the end of the bytes after [length bytes_data] steps with the hash in the
    accumulator, and no run is longer or ends elsewhere.  For every pair in
    which a surrogate code point occurs, the encoding raises
    [UnicodeEncodeError] and so does the function, before any loop; every
    pair of strings is of one kind or the other. *)
Theorem C6_total_without_surrogates (year month_day : list Z) :
  (surrogate_free year -> surrogate_free month_day ->
   exists (bytes_data : list byte) (code : list Z),
     hash_input module_globals year month_day = Ok bytes_data /\
     nsteps loop_step (length bytes_data) (0, bytes_data) (hash_bytes bytes_data, []) /\
     (forall n final, nsteps loop_step n (0, bytes_data) final ->
                      (n <= length bytes_data)%nat) /\
     (forall n h, nsteps loop_step n (0, bytes_data) (h, []) ->
                  n = length bytes_data /\ h = hash_bytes bytes_data) /\
     generate_verification_code module_globals year month_day = Ok code /\
     length code = 4%nat) /\
  (Exists (fun c => is_surrogate c = true) (year ++ month_day) ->
   hash_input module_globals year month_day = Raise UnicodeEncodeError /\
   generate_verification_code module_globals year month_day =
     Raise UnicodeEncodeError) /\
  ((surrogate_free year /\ surrogate_free month_day) \/
   Exists (fun c => is_surrogate c = true) (year ++ month_day)).
Proof.
  split; [|split].
  - intros Hy Hmd.
    destruct (hash_input_total year month_day Hy Hmd) as [bytes_data E].
    destruct (code_of_hash_CHARS (hash_bytes bytes_data))
      as (c0 & c1 & c2 & c3 & Ecode & _).
    exists bytes_data, [c0; c1; c2; c3].
    split; [exact E|].
    split; [apply loop_runs|].
    split; [intros n final; apply loop_bounded|].
    split; [intros n h; apply loop_exhausts|].
    split; [|reflexivity].
    rewrite (generate_verification_code_hash _ _ _ E). exact Ecode.
  - intros Hex.
    pose proof (hash_input_surrogate year month_day Hex) as E.
    split; [exact E|].
    unfold generate_verification_code. rewrite E. reflexivity.
  - destruct (surrogate_free_or_not (year ++ month_day)) as [Hfree|Hex].
    + left. apply Forall_app in Hfree. exact Hfree.
    + right. exact Hex.
Qed.

Lemma C6_total_without_surrogates_witness :
  exists (bytes_data : list byte) (code : list Z),
    hash_input module_globals (lit "abc") [0x11F; 0x1F600] = Ok bytes_data /\
    nsteps loop_step (length bytes_data) (0, bytes_data) (hash_bytes bytes_data, []) /\
    (forall n final, nsteps loop_step n (0, bytes_data) final ->
                     (n <= length bytes_data)%nat) /\
    (forall n h, nsteps loop_step n (0, bytes_data) (h, []) ->
                 n = length bytes_data /\ h = hash_bytes bytes_data) /\
    generate_verification_code module_globals (lit "abc") [0x11F; 0x1F600] = Ok code /\
    length code = 4%nat.
Proof.
  apply (proj1 (C6_total_without_surrogates (lit "abc") [0x11F; 0x1F600]));
    repeat constructor.
Defined.

(** ** Decimal strings *)

Lemma zrange_forallb (P : Z -> bool) (lo : Z) (n : nat) :
  forallb P (zrange lo n) = true ->
  forall z, lo <= z < lo + Z.of_nat n -> P z = true.
Proof.
  intros Hall z Hz.
  rewrite forallb_forall in Hall. apply Hall.
  unfold zrange. apply in_map_iff.
  exists (Z.to_nat (z - lo)). split; [lia|].
  apply in_seq. lia.
Qed.

Lemma is_digit_digit_char (d : Z) : 0 <= d <= 9 -> is_digit (digit_char d) = true.
Proof.
  intros Hd. unfold is_digit, digit_char.
  apply andb_true_iff. split; apply Z.leb_le; lia.
Qed.

Lemma is_digit_iff (c : Z) : is_digit c = true <-> 48 <= c <= 57.
Proof.
  unfold is_digit. rewrite andb_true_iff, !Z.leb_le. reflexivity.
Qed.

Lemma is_digit_not_surrogate (c : Z) : is_digit c = true -> is_surrogate c = false.
Proof.
  rewrite is_digit_iff. intros Hc. unfold is_surrogate.
  apply andb_false_iff. left. apply Z.leb_gt. lia.
Qed.

Lemma uint_codes_digits (d : Decimal.uint) : forallb is_digit (uint_codes d) = true.
Proof.
  induction d; cbn [uint_codes forallb]; try reflexivity;
    rewrite is_digit_digit_char by lia; exact IHd.
Qed.

Lemma digits_are_digits (n : Z) : forallb is_digit (digits n) = true.
Proof. apply uint_codes_digits. Qed.

Lemma all_digits_surrogate_free (s : list Z) :
  forallb is_digit s = true -> surrogate_free s.
Proof.
  rewrite forallb_forall. intros Hs.
  apply Forall_forall. intros c Hc.
  apply is_digit_not_surrogate, Hs.
  apply list_elem_of_In, Hc.
Qed.

Lemma all_digits_no_minus (s : list Z) :
  forallb is_digit s = true -> ~ In minus_sign s.
Proof.
  rewrite forallb_forall. intros Hs Hin.
  apply Hs in Hin. discriminate Hin.
Qed.

Lemma str_surrogate_free (n : Z) : surrogate_free (str n).
Proof.
  unfold str. destruct (n <? 0).
  - constructor; [reflexivity|].
    apply all_digits_surrogate_free, digits_are_digits.
  - apply all_digits_surrogate_free, digits_are_digits.
Qed.

Lemma year_strings_checked : forallb year_string_ok (zrange 2024 77) = true.
Proof. vm_compute. reflexivity. Qed.

Lemma str_year (year : Z) :
  2024 <= year <= 2100 ->
  length (str year) = 4%nat /\ unpadded_decimal (str year) year.
Proof.
  intros Hy.
  pose proof (zrange_forallb _ _ _ year_strings_checked year ltac:(lia)) as Hok.
  unfold year_string_ok in Hok.
  apply andb_true_iff in Hok as [Hok Hval].
  apply andb_true_iff in Hok as [Hok Hhd].
  apply andb_true_iff in Hok as [Hlen Hdig].
  apply Nat.eqb_eq in Hlen. apply Z.eqb_eq in Hval.
  apply negb_true_iff, Z.eqb_neq in Hhd.
  split; [exact Hlen|].
  unfold unpadded_decimal.
  split; [intros Hnil; rewrite Hnil in Hlen; discriminate Hlen|].
  split; [exact Hdig|].
  split; [intros _; exact Hhd | exact Hval].
Qed.

(** The two-digit fields, checked one by one on [0, 99]. *)
Lemma format_02d_checked :
  forallb (fun n => bool_decide (format_02d n = two_digits n)) (zrange 0 100) = true.
Proof. vm_compute. reflexivity. Qed.

Lemma format_02d_two_digits (n : Z) : 0 <= n <= 99 -> format_02d n = two_digits n.
Proof.
  intros Hn.
  pose proof (zrange_forallb _ _ _ format_02d_checked n ltac:(lia)) as Hok.
  apply bool_decide_eq_true in Hok. exact Hok.
Qed.

Lemma two_digits_are_digits (n : Z) :
  0 <= n <= 99 -> forallb is_digit (two_digits n) = true.
Proof.
  intros Hn. unfold two_digits. cbn [forallb].
  rewrite !is_digit_digit_char; [reflexivity | |];
    Z.div_mod_to_equations; lia.
Qed.

Lemma two_digits_value (n : Z) : decimal_value (two_digits n) = n.
Proof.
  unfold decimal_value, two_digits, digit_char. simpl.
  pose proof (Z.div_mod n 10). lia.
Qed.

Lemma parse_two_digits (n : Z) : 0 <= n <= 99 -> parse_decimal (two_digits n) = Some n.
Proof.
  intros Hn. unfold parse_decimal.
  change (match two_digits n with [] => None | _ => _ end)
    with (if forallb is_digit (two_digits n)
          then Some (decimal_value (two_digits n)) else None).
  rewrite two_digits_are_digits, two_digits_value by exact Hn. reflexivity.
Qed.

(** ** The shape of a generated key *)

Lemma CHARS_members_allowed : Forall (fun c => ~ In c (lit "01IO")) CHARS.
Proof.
  apply Forall_forall. intros c Hc Hbad.
  apply list_elem_of_In in Hc.
  vm_compute in Hc. vm_compute in Hbad.
  repeat (destruct Hc as [Hc|Hc];
          [subst c; repeat (destruct Hbad as [Hbad|Hbad]; [discriminate Hbad|]);
           exact Hbad|]).
  exact Hc.
Qed.

Lemma CHARS_no_minus : ~ In minus_sign CHARS.
Proof.
  intros Hin. vm_compute in Hin.
  repeat (destruct Hin as [Hin|Hin]; [discriminate Hin|]). exact Hin.
Qed.

Lemma license_key_shape (year month day : Z) :
  0 <= month <= 99 -> 0 <= day <= 99 ->
  exists c0 c1 c2 c3 : Z,
    generate_license_key module_globals year month day =
      Ok (lit "KBOA-" ++ str year ++ lit "-" ++
          (two_digits month ++ two_digits day) ++ lit "-" ++ [c0; c1; c2; c3]) /\
    generate_verification_code module_globals (str year)
      (format_02d month ++ format_02d day) = Ok [c0; c1; c2; c3] /\
    In c0 CHARS /\ In c1 CHARS /\ In c2 CHARS /\ In c3 CHARS.
Proof.
  intros Hm Hd.
  unfold generate_license_key.
  rewrite !format_02d_two_digits by assumption.
  destruct (hash_input_total (str year) (two_digits month ++ two_digits day))
    as [bytes_data E].
  { apply str_surrogate_free. }
  { apply all_digits_surrogate_free. rewrite forallb_app.
    rewrite !two_digits_are_digits by assumption. reflexivity. }
  rewrite (generate_verification_code_hash _ _ _ E).
  destruct (code_of_hash_CHARS (hash_bytes bytes_data))
    as (c0 & c1 & c2 & c3 & Ecode & N0 & N1 & N2 & N3).
  exists c0, c1, c2, c3. rewrite Ecode. cbn [bind].
  repeat split; eauto using nth_error_In.
Qed.

(** C4: for every date in the accepted ranges the key is
    "KBOA-" YEAR "-" MONTHDAY "-" CODE, where YEAR is the unpadded decimal
    numeral of the year, MONTHDAY is the two digits of the month followed by
    the two digits of the day (four digits), and CODE is four characters of
    ABCDEFGHJKLMNPQRSTUVWXYZ23456789, none of them 0, 1, I or O. *)
Theorem C4_key_grammar (year month day : Z) :
  valid_date year month day ->
  exists YEAR MONTHDAY CODE : list Z,
    generate_license_key module_globals year month day =
      Ok (lit "KBOA-" ++ YEAR ++ lit "-" ++ MONTHDAY ++ lit "-" ++ CODE) /\
    unpadded_decimal YEAR year /\
    MONTHDAY = two_digits month ++ two_digits day /\
    length MONTHDAY = 4%nat /\ forallb is_digit MONTHDAY = true /\
    decimal_value (two_digits month) = month /\
    decimal_value (two_digits day) = day /\
    length CODE = 4%nat /\
    Forall (fun c => In c (lit "ABCDEFGHJKLMNPQRSTUVWXYZ23456789")) CODE /\
    Forall (fun c => ~ In c (lit "01IO")) CODE.
Proof.
  intros (Hy & Hm & Hd).
  destruct (license_key_shape year month day ltac:(lia) ltac:(lia))
    as (c0 & c1 & c2 & c3 & Ekey & _ & I0 & I1 & I2 & I3).
  exists (str year), (two_digits month ++ two_digits day), [c0; c1; c2; c3].
  split; [exact Ekey|].
  split; [apply str_year, Hy|].
  split; [reflexivity|].
  split; [reflexivity|].
  split; [rewrite forallb_app, !two_digits_are_digits by lia; reflexivity|].
  split; [apply two_digits_value|].
  split; [apply two_digits_value|].
  split; [reflexivity|].
  pose proof CHARS_members_allowed as Hallowed.
  rewrite Forall_forall in Hallowed.
  split.
  - constructor; [exact I0|]. constructor; [exact I1|].
    constructor; [exact I2|]. constructor; [exact I3|]. constructor.
  - constructor; [apply Hallowed, list_elem_of_In, I0|].
    constructor; [apply Hallowed, list_elem_of_In, I1|].
    constructor; [apply Hallowed, list_elem_of_In, I2|].
    constructor; [apply Hallowed, list_elem_of_In, I3|]. constructor.
Qed.

Lemma C4_key_grammar_witness :
  exists YEAR MONTHDAY CODE : list Z,
    generate_license_key module_globals 2027 1 15 =
      Ok (lit "KBOA-" ++ YEAR ++ lit "-" ++ MONTHDAY ++ lit "-" ++ CODE) /\
    unpadded_decimal YEAR 2027 /\
    MONTHDAY = two_digits 1 ++ two_digits 15 /\
    length MONTHDAY = 4%nat /\ forallb is_digit MONTHDAY = true /\
    decimal_value (two_digits 1) = 1 /\
    decimal_value (two_digits 15) = 15 /\
    length CODE = 4%nat /\
    Forall (fun c => In c (lit "ABCDEFGHJKLMNPQRSTUVWXYZ23456789")) CODE /\
    Forall (fun c => ~ In c (lit "01IO")) CODE.
Proof.
  apply (C4_key_grammar 2027 1 15). unfold valid_date. lia.
Defined.

(** ** Splitting a key and reading its fields back *)

Lemma split_on_no_sep (sep : Z) (s : list Z) :
  ~ In sep s -> split_on sep s = [s].
Proof.
  induction s as [|c s IH]; intros Hnot; simpl.
  - reflexivity.
  - destruct (c =? sep) eqn:E.
    + apply Z.eqb_eq in E. exfalso. apply Hnot. left. exact E.
    + rewrite IH; [reflexivity|].
      intros Hin. apply Hnot. right. exact Hin.
Qed.

Lemma split_on_app (sep : Z) (a b : list Z) :
  ~ In sep a -> split_on sep (a ++ sep :: b) = a :: split_on sep b.
Proof.
  induction a as [|c a IH]; intros Hnot; simpl.
  - rewrite Z.eqb_refl. reflexivity.
  - destruct (c =? sep) eqn:E.
    + apply Z.eqb_eq in E. exfalso. apply Hnot. left. exact E.
    + rewrite IH; [reflexivity|].
      intros Hin. apply Hnot. right. exact Hin.
Qed.

Lemma SCHOOL_CODE_no_minus : ~ In minus_sign (lit "KBOA").
Proof.
  intros Hin. vm_compute in Hin.
  repeat (destruct Hin as [Hin|Hin]; [discriminate Hin|]). exact Hin.
Qed.

Lemma parse_unpadded (s : list Z) (n : Z) :
  unpadded_decimal s n -> parse_decimal s = Some n.
Proof.
  intros (Hne & Hdig & _ & Hval). unfold parse_decimal.
  destruct s as [|c s]; [contradiction|].
  rewrite Hdig, Hval. reflexivity.
Qed.

(** C9: for every date in the accepted ranges, splitting the generated key
    on '-' gives exactly four fields; the second read as a decimal integer is
    the year, the first two characters of the third read back as the month
    and its last two as the day. *)
Theorem C9_date_round_trip (year month day : Z) :
  valid_date year month day ->
  exists key f1 f2 f3 f4 : list Z,
    generate_license_key module_globals year month day = Ok key /\
    split_on minus_sign key = [f1; f2; f3; f4] /\
    parse_decimal f2 = Some year /\
    length f3 = 4%nat /\
    parse_decimal (firstn 2 f3) = Some month /\
    parse_decimal (skipn 2 f3) = Some day.
Proof.
  intros (Hy & Hm & Hd).
  destruct (license_key_shape year month day ltac:(lia) ltac:(lia))
    as (c0 & c1 & c2 & c3 & Ekey & _ & I0 & I1 & I2 & I3).
  destruct (str_year year Hy) as [_ Hyear].
  set (MD := two_digits month ++ two_digits day) in *.
  set (CODE := [c0; c1; c2; c3]) in *.
  assert (Hshape :
    lit "KBOA-" ++ str year ++ lit "-" ++ MD ++ lit "-" ++ CODE =
    lit "KBOA" ++ minus_sign :: (str year ++ minus_sign :: (MD ++ minus_sign :: CODE)))
    by reflexivity.
  rewrite Hshape in Ekey.
  exists (lit "KBOA" ++ minus_sign :: (str year ++ minus_sign :: (MD ++ minus_sign :: CODE))),
    (lit "KBOA"), (str year), MD, CODE.
  split; [exact Ekey|].
  split.
  - rewrite split_on_app by exact SCHOOL_CODE_no_minus.
    rewrite split_on_app by (apply all_digits_no_minus, Hyear).
    rewrite split_on_app.
    + rewrite split_on_no_sep; [reflexivity|].
      unfold CODE. intros Hin.
      assert (Hc : In minus_sign CHARS)
        by (destruct Hin as [<-|[<-|[<-|[<-|[]]]]]; assumption).
      exact (CHARS_no_minus Hc).
    + apply all_digits_no_minus. unfold MD.
      rewrite forallb_app, !two_digits_are_digits by lia. reflexivity.
  - split; [apply parse_unpadded, Hyear|].
    split; [reflexivity|].
    split.
    + change (firstn 2 MD) with (two_digits month). apply parse_two_digits. lia.
    + change (skipn 2 MD) with (two_digits day). apply parse_two_digits. lia.
Qed.

Lemma C9_date_round_trip_witness :
  exists key f1 f2 f3 f4 : list Z,
    generate_license_key module_globals 2100 12 31 = Ok key /\
    split_on minus_sign key = [f1; f2; f3; f4] /\
    parse_decimal f2 = Some 2100 /\
    length f3 = 4%nat /\
    parse_decimal (firstn 2 f3) = Some 12 /\
    parse_decimal (skipn 2 f3) = Some 31.
Proof.
  apply (C9_date_round_trip 2100 12 31). unfold valid_date. lia.
Defined.

(** ** The bytes of the month-day field *)

Lemma byte_to_of_Z (z : Z) : 0 <= z < 256 -> byte_to_Z (byte_of_Z z) = z.
Proof.
  intros Hz. unfold byte_to_Z, byte_of_Z.
  destruct (Byte.of_N (Z.to_N z)) as [b|] eqn:E.
  - apply Byte.to_of_N in E. rewrite E. lia.
  - apply Byte.of_N_None_iff in E. lia.
Qed.

Lemma utf8_encode_ascii (s : list Z) :
  Forall (fun c => 0 <= c < 128) s -> utf8_encode s = Ok (map byte_of_Z s).
Proof.
  induction 1 as [|c s Hc _ IH]; simpl.
  - reflexivity.
  - unfold utf8_char.
    destruct (c <? 128) eqn:E; [|apply Z.ltb_ge in E; lia].
    rewrite IH. reflexivity.
Qed.

Lemma map_byte_of_Z_inj (s t : list Z) :
  Forall (fun c => 0 <= c < 128) s -> Forall (fun c => 0 <= c < 128) t ->
  map byte_of_Z s = map byte_of_Z t -> s = t.
Proof.
  intros Hs. revert t.
  induction Hs as [|c s Hc _ IH]; intros t Ht E; destruct Ht as [|c' t Hc' Ht];
    simpl in E; try discriminate E; [reflexivity|].
  injection E as Ehd Etl.
  f_equal; [|apply IH; assumption].
  rewrite <- (byte_to_of_Z c), <- (byte_to_of_Z c') by lia.
  rewrite Ehd. reflexivity.
Qed.

Lemma all_digits_ascii (s : list Z) :
  forallb is_digit s = true -> Forall (fun c => 0 <= c < 128) s.
Proof.
  rewrite forallb_forall. intros Hs.
  apply Forall_forall. intros c Hc.
  apply list_elem_of_In, Hs, is_digit_iff in Hc. lia.
Qed.

Lemma month_day_inj (m1 d1 m2 d2 : Z) :
  two_digits m1 ++ two_digits d1 = two_digits m2 ++ two_digits d2 ->
  m1 = m2 /\ d1 = d2.
Proof.
  unfold two_digits, digit_char. cbn [app]. intros E.
  injection E as Em_hi Em_lo Ed_hi Ed_lo.
  pose proof (Z.div_mod m1 10). pose proof (Z.div_mod m2 10).
  pose proof (Z.div_mod d1 10). pose proof (Z.div_mod d2 10).
  lia.
Qed.

Lemma hash_input_parts (year month_day : list Z) (by_ bm : list byte) :
  utf8_encode year = Ok by_ -> utf8_encode month_day = Ok bm ->
  exists pre post : list byte,
    utf8_encode SCHOOL_CODE = Ok pre /\ utf8_encode SECRET_KEY = Ok post /\
    hash_input module_globals year month_day = Ok (pre ++ by_ ++ bm ++ post).
Proof.
  intros Ey Em.
  destruct (utf8_encode_total _ SCHOOL_CODE_surrogate_free) as [pre Epre].
  destruct (utf8_encode_total _ SECRET_KEY_surrogate_free) as [post Epost].
  exists pre, post. split; [exact Epre|]. split; [exact Epost|].
  rewrite hash_input_module, !utf8_encode_app, Epre, Ey, Em, Epost.
  reflexivity.
Qed.

(** C10: on months 1-12 and days 1-31 the month-day string determines the
    pair, and for any year two distinct pairs give the hash two distinct byte
    sequences. *)
Theorem C10_month_day_injective (m1 d1 m2 d2 : Z) :
  1 <= m1 <= 12 -> 1 <= d1 <= 31 -> 1 <= m2 <= 12 -> 1 <= d2 <= 31 ->
  (format_02d m1 ++ format_02d d1 = format_02d m2 ++ format_02d d2 ->
   m1 = m2 /\ d1 = d2) /\
  (forall year : Z,
      exists b1 b2 : list byte,
        hash_input module_globals (str year) (format_02d m1 ++ format_02d d1) = Ok b1 /\
        hash_input module_globals (str year) (format_02d m2 ++ format_02d d2) = Ok b2 /\
        ((m1, d1) <> (m2, d2) -> b1 <> b2)).
Proof.
  intros Hm1 Hd1 Hm2 Hd2.
  rewrite !format_02d_two_digits by lia.
  split; [apply month_day_inj|].
  intros year.
  assert (Hdig : forall m d, 0 <= m <= 99 -> 0 <= d <= 99 ->
                 forallb is_digit (two_digits m ++ two_digits d) = true).
  { intros m d Hm Hd. rewrite forallb_app, !two_digits_are_digits by lia. reflexivity. }
  destruct (utf8_encode_total _ (str_surrogate_free year)) as [by_ Ey].
  pose proof (utf8_encode_ascii _ (all_digits_ascii _ (Hdig m1 d1 ltac:(lia) ltac:(lia)))) as E1.
  pose proof (utf8_encode_ascii _ (all_digits_ascii _ (Hdig m2 d2 ltac:(lia) ltac:(lia)))) as E2.
  destruct (hash_input_parts _ _ _ _ Ey E1) as (pre & post & Epre & Epost & H1).
  destruct (hash_input_parts _ _ _ _ Ey E2) as (pre' & post' & Epre' & Epost' & H2).
  rewrite Epre in Epre'. injection Epre' as <-.
  rewrite Epost in Epost'. injection Epost' as <-.
  eexists _, _. split; [exact H1|]. split; [exact H2|].
  intros Hneq Heq. apply Hneq.
  apply app_inv_head, app_inv_head, app_inv_tail in Heq.
  apply map_byte_of_Z_inj in Heq;
    [|apply all_digits_ascii, Hdig; lia ..].
  apply month_day_inj in Heq as [-> ->]. reflexivity.
Qed.

Lemma C10_month_day_injective_witness :
  (format_02d 1 ++ format_02d 21 = format_02d 12 ++ format_02d 1 ->
   1 = 12 /\ 21 = 1) /\
  (forall year : Z,
      exists b1 b2 : list byte,
        hash_input module_globals (str year) (format_02d 1 ++ format_02d 21) = Ok b1 /\
        hash_input module_globals (str year) (format_02d 12 ++ format_02d 1) = Ok b2 /\
        ((1, 21) <> (12, 1) -> b1 <> b2)).
Proof.
  apply (C10_month_day_injective 1 21 12 1); lia.
Defined.

(** ** The range check of main *)

Lemma main_iteration_cases (year month day : Z) :
  ((year < 2024 \/ 2100 < year) /\
   main_iteration module_globals year month day = Rejected YearOutOfRange) \/
  (2024 <= year <= 2100 /\ (month < 1 \/ 12 < month) /\
   main_iteration module_globals year month day = Rejected MonthOutOfRange) \/
  (2024 <= year <= 2100 /\ 1 <= month <= 12 /\ (day < 1 \/ 31 < day) /\
   main_iteration module_globals year month day = Rejected DayOutOfRange) \/
  (valid_date year month day /\
   exists key, generate_license_key module_globals year month day = Ok key /\
               main_iteration module_globals year month day = Printed key).
Proof.
  unfold main_iteration, valid_date. rewrite !Z.gtb_ltb.
  destruct (Z.ltb_spec year 2024); [left; split; [lia | reflexivity]|].
  destruct (Z.ltb_spec 2100 year); [left; split; [lia | reflexivity]|].
  right.
  destruct (Z.ltb_spec month 1); [left; repeat split; (lia || reflexivity)|].
  destruct (Z.ltb_spec 12 month); [left; repeat split; (lia || reflexivity)|].
  right.
  destruct (Z.ltb_spec day 1); [left; repeat split; (lia || reflexivity)|].
  destruct (Z.ltb_spec 31 day); [left; repeat split; (lia || reflexivity)|].
  right. split; [lia|].
  destruct (license_key_shape year month day ltac:(lia) ltac:(lia))
    as (c0 & c1 & c2 & c3 & Ekey & _).
  eexists. split; [exact Ekey|].
  cbn [orb]. rewrite Ekey. reflexivity.
Qed.

Lemma main_iteration_accepts (year month day : Z) :
  valid_date year month day ->
  exists key, generate_license_key module_globals year month day = Ok key /\
              main_iteration module_globals year month day = Printed key.
Proof.
  intros Hvalid. unfold valid_date in Hvalid.
  destruct (main_iteration_cases year month day)
    as [(H & _)|[(Hy & H & _)|[(Hy & Hm & H & _)|(_ & Hkey)]]];
    [lia | lia | lia | exact Hkey].
Qed.

Lemma main_iteration_printed (year month day : Z) (key : list Z) :
  main_iteration module_globals year month day = Printed key ->
  valid_date year month day.
Proof.
  intros E.
  destruct (main_iteration_cases year month day)
    as [(_ & H)|[(_ & _ & H)|[(_ & _ & _ & H)|(Hvalid & _)]]];
    [rewrite H in E; discriminate E .. | exact Hvalid].
Qed.

Lemma main_iteration_year (year month day : Z) :
  year < 2024 \/ 2100 < year ->
  main_iteration module_globals year month day = Rejected YearOutOfRange.
Proof.
  intros Hout.
  destruct (main_iteration_cases year month day)
    as [(_ & H)|[(Hy & _)|[(Hy & _)|((Hy & _) & _)]]];
    [exact H | lia ..].
Qed.

Lemma main_iteration_month (year month day : Z) :
  2024 <= year <= 2100 -> month < 1 \/ 12 < month ->
  main_iteration module_globals year month day = Rejected MonthOutOfRange.
Proof.
  intros Hy Hout.
  destruct (main_iteration_cases year month day)
    as [(Hy' & _)|[(_ & _ & H)|[(_ & Hm & _)|((_ & Hm & _) & _)]]];
    [lia | exact H | lia ..].
Qed.

Lemma main_iteration_day (year month day : Z) :
  2024 <= year <= 2100 -> 1 <= month <= 12 -> day < 1 \/ 31 < day ->
  main_iteration module_globals year month day = Rejected DayOutOfRange.
Proof.
  intros Hy Hm Hout.
  destruct (main_iteration_cases year month day)
    as [(Hy' & _)|[(_ & Hm' & _)|[(_ & _ & _ & H)|((_ & _ & Hd) & _)]]];
    [lia | lia | exact H | lia].
Qed.

(** C7: the loop body prints a key exactly for years 2024-2100, months 1-12
    and days 1-31.  Years 2024 and 2100 pass, 2023 and 2101 are rejected;
    months 1 and 12 pass, 0 and 13 are rejected; days 1 and 31 pass, 0 and 32
    are rejected; the day is not compared with the length of the month: day
    31 of month 2 is accepted and a key is produced. *)
Theorem C7_range_check :
  (forall year month day : Z,
      (exists key, main_iteration module_globals year month day = Printed key) <->
      valid_date year month day) /\
  (forall month day : Z, 1 <= month <= 12 -> 1 <= day <= 31 ->
      (exists key, main_iteration module_globals 2024 month day = Printed key) /\
      (exists key, main_iteration module_globals 2100 month day = Printed key)) /\
  (forall month day : Z,
      main_iteration module_globals 2023 month day = Rejected YearOutOfRange /\
      main_iteration module_globals 2101 month day = Rejected YearOutOfRange) /\
  (forall year day : Z, 2024 <= year <= 2100 -> 1 <= day <= 31 ->
      (exists key, main_iteration module_globals year 1 day = Printed key) /\
      (exists key, main_iteration module_globals year 12 day = Printed key)) /\
  (forall year day : Z, 2024 <= year <= 2100 ->
      main_iteration module_globals year 0 day = Rejected MonthOutOfRange /\
      main_iteration module_globals year 13 day = Rejected MonthOutOfRange) /\
  (forall year month : Z, 2024 <= year <= 2100 -> 1 <= month <= 12 ->
      (exists key, main_iteration module_globals year month 1 = Printed key) /\
      (exists key, main_iteration module_globals year month 31 = Printed key)) /\
  (forall year month : Z, 2024 <= year <= 2100 -> 1 <= month <= 12 ->
      main_iteration module_globals year month 0 = Rejected DayOutOfRange /\
      main_iteration module_globals year month 32 = Rejected DayOutOfRange) /\
  (forall year : Z, 2024 <= year <= 2100 ->
      exists key, generate_license_key module_globals year 2 31 = Ok key /\
                  main_iteration module_globals year 2 31 = Printed key).
Proof.
  assert (Hacc : forall year month day, valid_date year month day ->
            exists key, main_iteration module_globals year month day = Printed key).
  { intros year month day Hvalid.
    destruct (main_iteration_accepts year month day Hvalid) as (key & _ & E).
    exists key. exact E. }
  split.
  { intros year month day. split.
    - intros [key E]. exact (main_iteration_printed _ _ _ _ E).
    - apply Hacc. }
  split.
  { intros month day Hm Hd. split; apply Hacc; unfold valid_date; lia. }
  split.
  { intros month day. split; apply main_iteration_year; lia. }
  split.
  { intros year day Hy Hd. split; apply Hacc; unfold valid_date; lia. }
  split.
  { intros year day Hy. split; apply main_iteration_month; lia. }
  split.
  { intros year month Hy Hm. split; apply Hacc; unfold valid_date; lia. }
  split.
  { intros year month Hy Hm. split; apply main_iteration_day; lia. }
  intros year Hy. apply main_iteration_accepts. unfold valid_date. lia.
Qed.

Lemma C7_range_check_witness :
  exists key, generate_license_key module_globals 2024 2 31 = Ok key /\
              main_iteration module_globals 2024 2 31 = Printed key.
Proof.
  destruct C7_range_check as (_ & _ & _ & _ & _ & _ & _ & Hfeb).
  apply (Hfeb 2024). lia.
Defined.

(** C8: the verification code does not identify the date.  The valid dates
    2024-02-10 and 2095-01-06 hash to different 32-bit values that agree on
    their low 20 bits, the only bits the output reads, and so receive the
    same code. *)
Theorem C8_codes_collide :
  exists y1 m1 d1 y2 m2 d2 : Z,
    valid_date y1 m1 d1 /\ valid_date y2 m2 d2 /\
    (y1, m1, d1) <> (y2, m2, d2) /\
    exists (b1 b2 : list byte) (code : list Z),
      hash_input module_globals (str y1) (format_02d m1 ++ format_02d d1) = Ok b1 /\
      hash_input module_globals (str y2) (format_02d m2 ++ format_02d d2) = Ok b2 /\
      hash_bytes b1 <> hash_bytes b2 /\
      hash_bytes b1 mod 2 ^ 20 = hash_bytes b2 mod 2 ^ 20 /\
      generate_verification_code module_globals (str y1)
        (format_02d m1 ++ format_02d d1) = Ok code /\
      generate_verification_code module_globals (str y2)
        (format_02d m2 ++ format_02d d2) = Ok code.
Proof.
  exists 2024, 2, 10, 2095, 1, 6.
  split; [unfold valid_date; lia|].
  split; [unfold valid_date; lia|].
  split; [intros E; discriminate E|].
  assert (E1 : exists b, hash_input module_globals (str 2024)
                           (format_02d 2 ++ format_02d 10) = Ok b /\
                         hash_bytes b = 1618345427)
    by (eexists; split; [vm_compute; reflexivity | vm_compute; reflexivity]).
  assert (E2 : exists b, hash_input module_globals (str 2095)
                           (format_02d 1 ++ format_02d 6) = Ok b /\
                         hash_bytes b = 1819672019)
    by (eexists; split; [vm_compute; reflexivity | vm_compute; reflexivity]).
  destruct E1 as (b1 & E1 & H1). destruct E2 as (b2 & E2 & H2).
  exists b1, b2, (lit "VQ9M").
  split; [exact E1|]. split; [exact E2|].
  rewrite (generate_verification_code_hash _ _ _ E1).
  rewrite (generate_verification_code_hash _ _ _ E2).
  rewrite H1, H2.
  split; [intros E; discriminate E|].
  split; [vm_compute; reflexivity|].
  split; vm_compute; reflexivity.
Qed.

(** ** The hash as a polynomial *)

Lemma fold_hash_poly (bs : list byte) (h : Z) :
  fold_left hash_step bs h =
    (h * 31 ^ Z.of_nat (length bs) + poly_sum bs) mod 2 ^ 32
  \/ bs = [] /\ fold_left hash_step bs h = h.
Proof.
  revert h. induction bs as [|b bs IH]; intros h.
  - right. split; reflexivity.
  - left. cbn [fold_left poly_sum length].
    rewrite Nat2Z.inj_succ, Z.pow_succ_r by lia.
    destruct (IH (hash_step h b)) as [E | [-> E]].
    + rewrite E, hash_step_spec. unfold spec_hash_step.
      rewrite Z.add_mod, Z.mul_mod_idemp_l, <- Z.add_mod by lia.
      f_equal. lia.
    + rewrite E, hash_step_spec. unfold spec_hash_step.
      cbn [length poly_sum]. f_equal.
      change (31 ^ Z.of_nat 0) with 1. lia.
Qed.

Lemma hash_bytes_poly (bs : list byte) : hash_bytes bs = poly_sum bs mod 2 ^ 32.
Proof.
  unfold hash_bytes.
  destruct (fold_hash_poly bs 0) as [E | [-> E]].
  - rewrite E. f_equal; lia.
  - reflexivity.
Qed.

Lemma poly_sum_app (pre suf : list byte) :
  poly_sum (pre ++ suf) = poly_sum pre * 31 ^ Z.of_nat (length suf) + poly_sum suf.
Proof.
  induction pre as [|b pre IH]; cbn [app poly_sum].
  - lia.
  - rewrite IH, length_app, Nat2Z.inj_add, Z.pow_add_r by lia. lia.
Qed.

Lemma poly_sum_nonneg (bs : list byte) : 0 <= poly_sum bs.
Proof.
  induction bs as [|b bs IH]; cbn [poly_sum]; [lia|].
  assert (0 <= byte_to_Z b) by (unfold byte_to_Z; lia).
  assert (0 <= 31 ^ Z.of_nat (length bs)) by (apply Z.pow_nonneg; lia).
  nia.
Qed.

(** X1: the accumulator wrapped after every byte equals the polynomial
    b_0 * 31^(n-1) + ... + b_(n-1) * 31^0 of the bytes wrapped once at the
    end, and the hash of a concatenation is obtained from the hash of the
    first part by continuing the same loop. *)
Theorem hash_is_polynomial_mod_2_32 (bytes_data more : list byte) :
  hash_bytes bytes_data = poly_sum bytes_data mod 2 ^ 32 /\
  hash_bytes (bytes_data ++ more) =
    (hash_bytes bytes_data * 31 ^ Z.of_nat (length more) + poly_sum more) mod 2 ^ 32.
Proof.
  split; [apply hash_bytes_poly|].
  rewrite !hash_bytes_poly, poly_sum_app.
  symmetry.
  rewrite Z.add_mod by lia. rewrite Z.mul_mod_idemp_l by lia.
  rewrite <- Z.add_mod by lia. reflexivity.
Qed.

(** ** What the code tells about the hash *)

Lemma CHARS_NoDup : List.NoDup CHARS.
Proof. apply NoDup_ListNoDup, (bool_decide_unpack _). vm_compute. exact I. Qed.

Lemma fields_give_low_bits (h1 h2 : Z) :
  (forall i, 0 <= i < 4 -> field h1 i = field h2 i) ->
  h1 mod 2 ^ 20 = h2 mod 2 ^ 20.
Proof.
  intros Hfields. apply Z.bits_inj'. intros k Hk.
  destruct (Z.ltb_spec k 20) as [Hlow|Hhigh].
  - rewrite !Z.mod_pow2_bits_low by lia.
    assert (Hi : 0 <= k / 5 < 4) by (Z.div_mod_to_equations; lia).
    assert (Hj : 0 <= k mod 5 < 5) by (apply Z.mod_pos_bound; lia).
    assert (E : Z.testbit (field h1 (k / 5)) (k mod 5) =
                Z.testbit (field h2 (k / 5)) (k mod 5))
      by (rewrite (Hfields _ Hi); reflexivity).
    rewrite !field_testbit in E by lia.
    replace (k mod 5 <? 5) with true in E by (symmetry; apply Z.ltb_lt; lia).
    replace (k / 5 * 5 + k mod 5) with k in E
      by (pose proof (Z.div_mod k 5); lia).
    exact E.
  - rewrite !Z.mod_pow2_bits_high by lia. reflexivity.
Qed.

Lemma code_gives_fields (h1 h2 : Z) :
  code_of_hash CHARS h1 = code_of_hash CHARS h2 ->
  forall i, 0 <= i < 4 -> field h1 i = field h2 i.
Proof.
  intros Ecode.
  destruct (code_of_hash_CHARS h1) as (a0 & a1 & a2 & a3 & E1 & A0 & A1 & A2 & A3).
  destruct (code_of_hash_CHARS h2) as (b0 & b1 & b2 & b3 & E2 & B0 & B1 & B2 & B3).
  rewrite E1, E2 in Ecode. injection Ecode as <- <- <- <-.
  assert (Hsame : forall i, nth_error CHARS (Z.to_nat (field h1 i)) =
                            nth_error CHARS (Z.to_nat (field h2 i)) ->
                            field h1 i = field h2 i).
  { intros i E.
    pose proof (field_range h1 i). pose proof (field_range h2 i).
    pose proof (proj1 (NoDup_nth_error CHARS) CHARS_NoDup
                  (Z.to_nat (field h1 i)) (Z.to_nat (field h2 i))) as Hinj.
    rewrite CHARS_length in Hinj.
    specialize (Hinj ltac:(lia) E). lia. }
  intros i Hi.
  assert (Hcases : i = 0 \/ i = 1 \/ i = 2 \/ i = 3) by lia.
  destruct Hcases as [-> | [-> | [-> | ->]]]; apply Hsame; congruence.
Qed.

(** X2: two hash values receive the same four characters exactly when they
    agree on their low 20 bits: the 32 symbols are distinct, so the code
    loses nothing of the 20 bits it reads. *)
Theorem same_code_iff_same_low_20_bits (h1 h2 : Z) :
  code_of_hash CHARS h1 = code_of_hash CHARS h2 <->
  h1 mod 2 ^ 20 = h2 mod 2 ^ 20.
Proof.
  split.
  - intros Ecode. apply fields_give_low_bits, code_gives_fields, Ecode.
  - intros Emod.
    rewrite <- (code_of_hash_low_bits CHARS h1), Emod.
    apply code_of_hash_low_bits.
Qed.

(** X3: the indexing in the second loop stays in range for every hash value
    exactly when the alphabet has at least 32 symbols; with a shorter one the
    hash 31 raises [IndexError]. *)
Theorem alphabet_needs_32_symbols (chars : list Z) :
  ((forall hash_val, exists code,
       code_of_hash chars hash_val = Ok code /\ length code = 4%nat) <->
   (32 <= length chars)%nat) /\
  ((length chars < 32)%nat -> code_of_hash chars 31 = Raise IndexError).
Proof.
  assert (Hshort : (length chars < 32)%nat -> code_of_hash chars 31 = Raise IndexError).
  { intros Hlen. rewrite code_of_hash_unfold.
    change (field 31 0) with 31. unfold str_index at 1.
    change (31 <? 0) with false. cbn iota.
    replace ((0 <=? 31) && (31 <? Z.of_nat (length chars))) with false
      by (symmetry; apply andb_false_iff; right; apply Z.ltb_ge; lia).
    reflexivity. }
  split; [|exact Hshort].
  split.
  - intros Hall.
    destruct (Nat.le_gt_cases 32 (length chars)) as [Hok|Hlen]; [exact Hok|].
    destruct (Hall 31) as (code & E & _).
    rewrite (Hshort Hlen) in E. discriminate E.
  - intros Hlen h. rewrite code_of_hash_unfold.
    destruct (str_index_in_range chars (field h 0)) as (c0 & E0 & _);
      [pose proof (field_range h 0); lia|].
    destruct (str_index_in_range chars (field h 1)) as (c1 & E1 & _);
      [pose proof (field_range h 1); lia|].
    destruct (str_index_in_range chars (field h 2)) as (c2 & E2 & _);
      [pose proof (field_range h 2); lia|].
    destruct (str_index_in_range chars (field h 3)) as (c3 & E3 & _);
      [pose proof (field_range h 3); lia|].
    rewrite E0, E1, E2, E3. cbn [bind].
    exists [c0; c1; c2; c3]. split; reflexivity.
Qed.

(** ** A change of one character *)

Lemma byte_to_Z_range (b : byte) : 0 <= byte_to_Z b < 256.
Proof. unfold byte_to_Z. pose proof (Byte.to_N_bounded b). lia. Qed.

Lemma byte_to_Z_inj (b b' : byte) : byte_to_Z b = byte_to_Z b' -> b = b'.
Proof.
  unfold byte_to_Z. intros E.
  assert (EN : Byte.to_N b = Byte.to_N b') by lia.
  pose proof (Byte.of_to_N b) as Hb. rewrite EN, Byte.of_to_N in Hb.
  congruence.
Qed.

Lemma hash_low_bits_poly (bs : list byte) :
  hash_bytes bs mod 2 ^ 20 = poly_sum bs mod 2 ^ 20.
Proof.
  rewrite hash_bytes_poly. apply Z.mod_mod_divide.
  exists (2 ^ 12). reflexivity.
Qed.

Lemma pow2_pow31_coprime (n : nat) : Z.gcd (2 ^ 20) (31 ^ Z.of_nat n) = 1.
Proof.
  apply Z.coprime_pow_r; [lia|]. reflexivity.
Qed.

Lemma one_byte_changes_low_bits (pre suf : list byte) (b b' : byte) :
  hash_bytes (pre ++ b :: suf) mod 2 ^ 20 = hash_bytes (pre ++ b' :: suf) mod 2 ^ 20 ->
  b = b'.
Proof.
  rewrite !hash_low_bits_poly, !poly_sum_app. cbn [poly_sum length].
  set (w := 31 ^ Z.of_nat (length suf)).
  set (a := poly_sum pre * 31 ^ Z.of_nat (S (length suf))).
  intros E.
  assert (Hdiv : (2 ^ 20 | w * (byte_to_Z b - byte_to_Z b'))).
  { apply Z.mod_divide; [lia|].
    replace (w * (byte_to_Z b - byte_to_Z b'))
      with ((a + (byte_to_Z b * w + poly_sum suf)) -
            (a + (byte_to_Z b' * w + poly_sum suf))) by lia.
    rewrite Zminus_mod, E, Z.sub_diag. reflexivity. }
  apply Z.gauss in Hdiv; [|apply pow2_pow31_coprime].
  destruct Hdiv as [k Hk].
  pose proof (byte_to_Z_range b). pose proof (byte_to_Z_range b').
  apply byte_to_Z_inj.
  change (2 ^ 20) with 1048576 in Hk. lia.
Qed.

Lemma utf8_encode_one_ascii (pre suf : list Z) (a : Z) (pb sb : list byte) :
  utf8_encode pre = Ok pb -> utf8_encode suf = Ok sb -> 0 <= a < 128 ->
  utf8_encode (pre ++ a :: suf) = Ok (pb ++ byte_of_Z a :: sb).
Proof.
  intros Epre Esuf Ha.
  rewrite utf8_encode_app, Epre. cbn [utf8_encode bind].
  unfold utf8_char.
  destruct (a <? 128) eqn:E; [|apply Z.ltb_ge in E; lia].
  cbn [bind]. rewrite Esuf. reflexivity.
Qed.

Lemma hash_input_around (year month_day pre suf : list Z) (a : Z) :
  year ++ month_day = pre ++ a :: suf ->
  surrogate_free pre -> surrogate_free suf -> 0 <= a < 128 ->
  exists pb sb : list byte,
    utf8_encode (SCHOOL_CODE ++ pre) = Ok pb /\
    utf8_encode (suf ++ SECRET_KEY) = Ok sb /\
    hash_input module_globals year month_day = Ok (pb ++ byte_of_Z a :: sb).
Proof.
  intros Esplit Hpre Hsuf Ha.
  destruct (utf8_encode_total (SCHOOL_CODE ++ pre)) as [pb Epb].
  { apply Forall_app. split; [apply SCHOOL_CODE_surrogate_free | exact Hpre]. }
  destruct (utf8_encode_total (suf ++ SECRET_KEY)) as [sb Esb].
  { apply Forall_app. split; [exact Hsuf | apply SECRET_KEY_surrogate_free]. }
  exists pb, sb. split; [exact Epb|]. split; [exact Esb|].
  rewrite hash_input_module.
  replace (SCHOOL_CODE ++ year ++ month_day ++ SECRET_KEY)
    with ((SCHOOL_CODE ++ pre) ++ a :: (suf ++ SECRET_KEY)).
  - apply utf8_encode_one_ascii; assumption.
  - rewrite (app_assoc year), Esplit, <- !app_assoc. reflexivity.
Qed.

(** X4: replacing one ASCII character of the year or of the month-day string
    by another always changes the verification code (the weight 31^k of the
    changed byte is odd, so the low 20 bits of the hash move).  The strings
    around the changed character may be anything the codec accepts. *)
Theorem one_character_change_changes_code
    (year1 month_day1 year2 month_day2 pre suf : list Z) (a b : Z) :
  year1 ++ month_day1 = pre ++ a :: suf ->
  year2 ++ month_day2 = pre ++ b :: suf ->
  surrogate_free pre -> surrogate_free suf ->
  0 <= a < 128 -> 0 <= b < 128 -> a <> b ->
  exists code1 code2 : list Z,
    generate_verification_code module_globals year1 month_day1 = Ok code1 /\
    generate_verification_code module_globals year2 month_day2 = Ok code2 /\
    code1 <> code2.
Proof.
  intros E1 E2 Hpre Hsuf Ha Hb Hab.
  destruct (hash_input_around _ _ _ _ _ E1 Hpre Hsuf Ha) as (pb & sb & Epb & Esb & H1).
  destruct (hash_input_around _ _ _ _ _ E2 Hpre Hsuf Hb) as (pb' & sb' & Epb' & Esb' & H2).
  rewrite Epb in Epb'. injection Epb' as <-.
  rewrite Esb in Esb'. injection Esb' as <-.
  rewrite (generate_verification_code_hash _ _ _ H1).
  rewrite (generate_verification_code_hash _ _ _ H2).
  destruct (code_of_hash_CHARS (hash_bytes (pb ++ byte_of_Z a :: sb)))
    as (a0 & a1 & a2 & a3 & C1 & _).
  destruct (code_of_hash_CHARS (hash_bytes (pb ++ byte_of_Z b :: sb)))
    as (b0 & b1 & b2 & b3 & C2 & _).
  exists [a0; a1; a2; a3], [b0; b1; b2; b3].
  split; [exact C1|]. split; [exact C2|].
  intros Ecode. apply Hab.
  assert (Esame : code_of_hash CHARS (hash_bytes (pb ++ byte_of_Z a :: sb)) =
                  code_of_hash CHARS (hash_bytes (pb ++ byte_of_Z b :: sb)))
    by (rewrite C1, C2, Ecode; reflexivity).
  pose proof (fields_give_low_bits _ _ (code_gives_fields _ _ Esame)) as Elow.
  apply one_byte_changes_low_bits in Elow.
  rewrite <- (byte_to_of_Z a), <- (byte_to_of_Z b) by lia.
  rewrite Elow. reflexivity.
Qed.

Lemma one_character_change_changes_code_witness :
  exists code1 code2 : list Z,
    generate_verification_code module_globals (lit "2027") (lit "0115") = Ok code1 /\
    generate_verification_code module_globals (lit "2027") (lit "0715") = Ok code2 /\
    code1 <> code2.
Proof.
  apply (one_character_change_changes_code
           (lit "2027") (lit "0115") (lit "2027") (lit "0715")
           (lit "20270") (lit "15") 49 55);
    [reflexivity | reflexivity | repeat constructor | repeat constructor | lia ..].
Defined.

(** ** Keys and dates *)

Lemma zero_fill_surrogate_free (width : nat) (s : list Z) :
  surrogate_free s -> surrogate_free (zero_fill width s).
Proof.
  intros Hs. unfold zero_fill. apply Forall_app. split; [|exact Hs].
  induction (width - length s)%nat as [|k IH]; cbn [repeat]; constructor;
    [reflexivity | exact IH].
Qed.

Lemma format_02d_surrogate_free (n : Z) : surrogate_free (format_02d n).
Proof.
  unfold format_02d. destruct (n <? 0).
  - constructor; [reflexivity|].
    apply zero_fill_surrogate_free, all_digits_surrogate_free, digits_are_digits.
  - apply zero_fill_surrogate_free, all_digits_surrogate_free, digits_are_digits.
Qed.

(** X5: [generate_license_key] raises for no integers the interpreter can
    print (fewer than 4301 decimal digits), in the accepted ranges or not,
    negative ones included: it returns "KBOA-", the year as [str] prints it,
    "-", the two formatted fields, "-", and four characters of the
    alphabet. *)
Theorem generate_license_key_never_raises (year month day : Z) :
  printable year -> printable month -> printable day ->
  exists code : list Z,
    generate_license_key module_globals year month day =
      Ok (lit "KBOA-" ++ str year ++ lit "-" ++
          (format_02d month ++ format_02d day) ++ lit "-" ++ code) /\
    length code = 4%nat /\
    Forall (fun c => In c CHARS) code.
Proof.
  intros _ _ _.
  unfold generate_license_key.
  destruct (hash_input_total (str year) (format_02d month ++ format_02d day))
    as [bytes_data E].
  { apply str_surrogate_free. }
  { apply Forall_app. split; apply format_02d_surrogate_free. }
  rewrite (generate_verification_code_hash _ _ _ E).
  destruct (code_of_hash_CHARS (hash_bytes bytes_data))
    as (c0 & c1 & c2 & c3 & Ecode & N0 & N1 & N2 & N3).
  exists [c0; c1; c2; c3]. rewrite Ecode. cbn [bind].
  split; [reflexivity|]. split; [reflexivity|].
  repeat (constructor; [eauto using nth_error_In|]). constructor.
Qed.

Lemma generate_license_key_never_raises_witness :
  exists code : list Z,
    generate_license_key module_globals (-7) 123 0 =
      Ok (lit "KBOA-" ++ str (-7) ++ lit "-" ++
          (format_02d 123 ++ format_02d 0) ++ lit "-" ++ code) /\
    length code = 4%nat /\
    Forall (fun c => In c CHARS) code.
Proof.
  apply (generate_license_key_never_raises (-7) 123 0);
    unfold printable, max_str_digits; apply Z.ltb_lt; vm_compute; reflexivity.
Defined.

Lemma valid_key_parts (year month day : Z) (key : list Z) :
  valid_date year month day ->
  generate_license_key module_globals year month day = Ok key ->
  exists code : list Z,
    key = lit "KBOA-" ++ str year ++ lit "-" ++
          (two_digits month ++ two_digits day) ++ lit "-" ++ code /\
    length (str year) = 4%nat /\ length code = 4%nat.
Proof.
  intros (Hy & Hm & Hd) E.
  destruct (license_key_shape year month day ltac:(lia) ltac:(lia))
    as (c0 & c1 & c2 & c3 & Ekey & _).
  rewrite Ekey in E. injection E as <-.
  exists [c0; c1; c2; c3]. split; [reflexivity|].
  split; [apply str_year, Hy | reflexivity].
Qed.

(** X6: on the accepted ranges a key has exactly 19 characters. *)
Theorem license_key_has_19_characters (year month day : Z) (key : list Z) :
  valid_date year month day ->
  generate_license_key module_globals year month day = Ok key ->
  length key = 19%nat.
Proof.
  intros Hvalid E.
  destruct (valid_key_parts _ _ _ _ Hvalid E) as (code & -> & Hyear & Hcode).
  rewrite !length_app, Hyear, Hcode. reflexivity.
Qed.

Lemma license_key_has_19_characters_witness :
  length (lit "KBOA-2027-0115-4QTM") = 19%nat.
Proof.
  apply (license_key_has_19_characters 2027 1 15);
    [unfold valid_date; lia | vm_compute; reflexivity].
Defined.

(** X7: on the accepted ranges the key identifies the date: two dates with
    the same key are the same date, although their 4-character codes alone
    may coincide. *)
Theorem license_key_identifies_date (y1 m1 d1 y2 m2 d2 : Z) (key : list Z) :
  valid_date y1 m1 d1 -> valid_date y2 m2 d2 ->
  generate_license_key module_globals y1 m1 d1 = Ok key ->
  generate_license_key module_globals y2 m2 d2 = Ok key ->
  y1 = y2 /\ m1 = m2 /\ d1 = d2.
Proof.
  intros Hv1 Hv2 E1 E2.
  destruct (valid_key_parts _ _ _ _ Hv1 E1) as (code1 & K1 & L1 & _).
  destruct (valid_key_parts _ _ _ _ Hv2 E2) as (code2 & K2 & L2 & _).
  rewrite K1 in K2. apply app_inv_head in K2.
  apply app_inj_1 in K2 as [Eyear Krest]; [|congruence].
  apply app_inv_head in Krest.
  apply app_inj_1 in Krest as [Emd _]; [|reflexivity].
  destruct Hv1 as (Hy1 & _). destruct Hv2 as (Hy2 & _).
  destruct (str_year y1 Hy1) as (_ & _ & _ & _ & V1).
  destruct (str_year y2 Hy2) as (_ & _ & _ & _ & V2).
  split; [rewrite <- V1, <- V2, Eyear; reflexivity|].
  apply month_day_inj, Emd.
Qed.

Lemma license_key_identifies_date_witness :
  2024 = 2024 /\ 2 = 2 /\ 10 = 10.
Proof.
  apply (license_key_identifies_date 2024 2 10 2024 2 10 (lit "KBOA-2024-0210-VQ9M"));
    [unfold valid_date; lia | unfold valid_date; lia
     | vm_compute; reflexivity | vm_compute; reflexivity].
Defined.

(** X8: the year and the month-day string enter the hash with nothing
    between them, so the code depends on their concatenation only: moving
    the boundary between the two arguments leaves the result unchanged. *)
Theorem code_depends_on_concatenation_only (g : gmap string (list Z))
    (year1 month_day1 year2 month_day2 : list Z) :
  year1 ++ month_day1 = year2 ++ month_day2 ->
  generate_verification_code g year1 month_day1 =
    generate_verification_code g year2 month_day2.
Proof.
  intros E. unfold generate_verification_code, hash_input.
  destruct (lookup_global g "SCHOOL_CODE") as [school|]; [|reflexivity].
  destruct (lookup_global g "SECRET_KEY") as [secret|]; [|reflexivity].
  cbn [bind].
  rewrite (app_assoc year1), (app_assoc year2), E. reflexivity.
Qed.

Lemma code_depends_on_concatenation_only_witness :
  generate_verification_code module_globals (str 2027) (format_02d 100 ++ format_02d 15) =
    generate_verification_code module_globals (str 20271) (format_02d 0 ++ format_02d 15).
Proof.
  apply (code_depends_on_concatenation_only module_globals). reflexivity.
Defined.

(** ** The interactive loop *)

Lemma main_iteration_never_uncaught (year month day : Z) (e : exn) :
  main_iteration module_globals year month day <> Uncaught e.
Proof.
  intros E.
  destruct (main_iteration_cases year month day)
    as [(_ & H)|[(_ & _ & H)|[(_ & _ & _ & H)|(_ & key & _ & H)]]];
    rewrite H in E; discriminate E.
Qed.

(** A rule for properties of the loop: whatever holds at the three ways out
    and is kept by the events of one round holds of every run. *)
Lemma main_loop_rule (E : output -> Prop) (P : list output * exit -> Prop)
    (int_of_str : list Z -> option Z) (lower : list Z -> list Z) :
  (forall evs r, Forall E evs -> P r -> P (emit evs r)) ->
  P end_of_input -> P interrupted -> P ([OutEnded], Returns) ->
  E OutEnterDate -> (forall p, E (OutPrompt p)) -> E OutNotANumber ->
  (forall why, E (OutRangeError why)) -> E OutBlank ->
  (forall year month day key,
      main_iteration module_globals year month day = Printed key ->
      E (OutLicense day month year key)) ->
  forall inputs, P (main_loop int_of_str lower inputs).
Proof.
  intros Hemit Heof Hint Hend Hdate Hprompt Hnan Hrange Hblank Hkey inputs.
  remember (length inputs) as n eqn:Hn.
  assert (Hlen : (length inputs <= n)%nat) by lia. clear Hn.
  revert inputs Hlen.
  induction n as [|n IH]; intros inputs Hlen.
  { destruct inputs; [|simpl in Hlen; lia].
    cbn [main_loop]. apply Hemit; [repeat constructor; auto | exact Heof]. }
  destruct inputs as [|[s1|] in1]; cbn [main_loop];
    (apply Hemit; [repeat constructor; auto|]);
    [exact Heof | | exact Hint].
  cbn [length] in Hlen.
  destruct (int_of_str s1) as [year|];
    [|apply Hemit; [repeat constructor; auto | apply IH; lia]].
  apply Hemit; [repeat constructor; auto|].
  destruct in1 as [|[s2|] in2]; [exact Heof | | exact Hint].
  cbn [length] in Hlen.
  destruct (int_of_str s2) as [month|];
    [|apply Hemit; [repeat constructor; auto | apply IH; lia]].
  apply Hemit; [repeat constructor; auto|].
  destruct in2 as [|[s3|] in3]; [exact Heof | | exact Hint].
  cbn [length] in Hlen.
  destruct (int_of_str s3) as [day|];
    [|apply Hemit; [repeat constructor; auto | apply IH; lia]].
  destruct (main_iteration module_globals year month day) as [why|key|e] eqn:Eiter.
  - apply Hemit; [repeat constructor; auto | apply IH; lia].
  - apply Hemit; [repeat constructor; auto|].
    destruct in3 as [|[again|] in4]; [exact Heof | | exact Hint].
    cbn [length] in Hlen.
    destruct (bool_decide (lower again = lit "e")).
    + apply Hemit; [repeat constructor; auto | apply IH; lia].
    + exact Hend.
  - exfalso. exact (main_iteration_never_uncaught _ _ _ _ Eiter).
Qed.

(** X9: whatever is typed, [main] displays a license key only for a date in
    the accepted ranges, and the key displayed is the key of that date. *)
Theorem main_shows_keys_of_valid_dates_only
    (int_of_str : list Z -> option Z) (lower : list Z -> list Z)
    (inputs : list stdin_event) :
  Forall shows_valid_key (fst (main int_of_str lower inputs)) /\
  (forall day month year key,
      In (OutLicense day month year key) (fst (main int_of_str lower inputs)) ->
      valid_date year month day /\
      generate_license_key module_globals year month day = Ok key).
Proof.
  assert (Hall : Forall shows_valid_key (fst (main int_of_str lower inputs))).
  { unfold main, emit at 1. cbn [fst app].
    constructor; [exact I|].
    apply (main_loop_rule shows_valid_key
             (fun r => Forall shows_valid_key (fst r)));
      try exact I; try (intros; exact I).
    - intros evs r Hevs Hr. unfold emit. cbn [fst].
      apply Forall_app. split; assumption.
    - constructor.
    - repeat constructor.
    - repeat constructor.
    - intros year month day key Eiter. cbn [shows_valid_key].
      split; [exact (main_iteration_printed _ _ _ _ Eiter)|].
      destruct (main_iteration_accepts year month day
                  (main_iteration_printed _ _ _ _ Eiter)) as (key' & Ekey & Eiter').
      rewrite Eiter in Eiter'. injection Eiter' as <-. exact Ekey. }
  split; [exact Hall|].
  intros day month year key Hin.
  rewrite Forall_forall in Hall.
  apply (Hall (OutLicense day month year key)), list_elem_of_In, Hin.
Qed.

(** X10: [main] never leaves through an exception of the key generator.  It
    either returns, and then the closing line is the last thing printed and
    is printed once, or the input ended at a prompt, [EOFError] leaves
    [main], and the closing line is not printed. *)
Theorem main_returns_or_runs_out_of_input
    (int_of_str : list Z -> option Z) (lower : list Z -> list Z)
    (inputs : list stdin_event) :
  (snd (main int_of_str lower inputs) = Returns /\
   exists shown, fst (main int_of_str lower inputs) = shown ++ [OutEnded] /\
                 ~ In OutEnded shown) \/
  (snd (main int_of_str lower inputs) = RaisesEOFError /\
   ~ In OutEnded (fst (main int_of_str lower inputs))).
Proof.
  set (Q := fun r : list output * exit =>
    (snd r = Returns /\
     exists shown, fst r = shown ++ [OutEnded] /\ ~ In OutEnded shown) \/
    (snd r = RaisesEOFError /\ ~ In OutEnded (fst r))).
  assert (Hemit : forall evs r,
             Forall (fun o => o <> OutEnded) evs -> Q r -> Q (emit evs r)).
  { intros evs r Hevs [(Hret & shown & Hout & Hnot) | (Heof & Hnot)].
    - left. split; [exact Hret|].
      exists (evs ++ shown). unfold emit. cbn [fst]. rewrite Hout.
      split; [apply app_assoc|].
      intros Hin. apply in_app_or in Hin as [Hin|Hin]; [|exact (Hnot Hin)].
      rewrite Forall_forall in Hevs.
      exact (Hevs _ (proj2 (list_elem_of_In _ _) Hin) eq_refl).
    - right. split; [exact Heof|].
      unfold emit. cbn [fst].
      intros Hin. apply in_app_or in Hin as [Hin|Hin]; [|exact (Hnot Hin)].
      rewrite Forall_forall in Hevs.
      exact (Hevs _ (proj2 (list_elem_of_In _ _) Hin) eq_refl). }
  change (Q (main int_of_str lower inputs)).
  unfold main. apply Hemit; [repeat constructor; discriminate|].
  apply (main_loop_rule (fun o => o <> OutEnded) Q);
    try discriminate; try (intros; discriminate).
  - exact Hemit.
  - right. split; [reflexivity|]. intros [].
  - left. split; [reflexivity|].
    exists [OutInterrupted]. split; [reflexivity|].
    intros [Hin|[]]. discriminate Hin.
  - left. split; [reflexivity|].
    exists []. split; [reflexivity|]. intros [].
Qed.

(** X11: a rejected date gets exactly one message, that of the first check
    that fails in the order year, month, day: the year message whenever the
    year is out of range, the month message only when the year is in range,
    the day message only when year and month are. *)
Theorem first_failing_check_decides_the_message (year month day : Z) :
  (main_iteration module_globals year month day = Rejected YearOutOfRange <->
   (year < 2024 \/ 2100 < year)) /\
  (main_iteration module_globals year month day = Rejected MonthOutOfRange <->
   (2024 <= year <= 2100 /\ (month < 1 \/ 12 < month))) /\
  (main_iteration module_globals year month day = Rejected DayOutOfRange <->
   (2024 <= year <= 2100 /\ 1 <= month <= 12 /\ (day < 1 \/ 31 < day))).
Proof.
  destruct (main_iteration_cases year month day)
    as [(Hy & H)|[(Hy & Hm & H)|[(Hy & Hm & Hd & H)|((Hy & Hm & Hd) & key & _ & H)]]];
    rewrite H; repeat split; intros; try discriminate; try lia; try reflexivity.
Qed.
